(** * logger-go: a shallow embedding of the structured logger and its
      Fiber middlewares, with the properties of its specification.

    The development follows the Go sources of the package:
    - the type declarations and helpers: [LogLevel], [LogType], [Config],
      [LogContext], [Fields], [MeasureDuration];
    - [logger.go]: the singleton ([Initialize], [GetInstance]), the field
      builder ([getTraceContext], [buildFields]) and the seven entry points;
    - [middleware.go]: [FiberMiddleware] and [RecoveryMiddleware].

    Go maps and the [*Logger] singleton are reference objects, so the model
    keeps them in explicit stores inside a [World]; a Go function becomes
    a computation [M A] over the world that either returns or panics. *)

From Stdlib Require Import ZArith NArith QArith String Ascii List Lia.
From stdpp Require Import base option list gmap strings fin_maps pretty.

Local Open Scope string_scope.
Local Open Scope Z_scope.
Local Open Scope list_scope.

#[local] Set Warnings "-clear-no-such-hyp".

(* ===================================================================== *)
(** ** Values of type [interface{}]                                        *)
(* ===================================================================== *)

(** The dynamic values that flow through a [LogContext].  [VError] stands
    for any value whose dynamic type implements [error]; it carries what
    its [Error()] method returns.  [VStringMap] is a [map[string]string]
    (the header map of the access log). *)
Inductive value : Type :=
| VNil
| VString (s : string)
| VInt (n : Z)
| VBool (b : bool)
| VError (msg : string)
| VStringMap (m : gmap string string).

(** [v.(string)]: the type assertion of [Fields]. *)
Definition as_string (v : value) : option string :=
  match v with VString s => Some s | _ => None end.

(** [v.(error)]: the type assertion of [Logger.Error]. *)
Definition as_error (v : value) : option string :=
  match v with VError msg => Some msg | _ => None end.

Definition is_nil (v : value) : bool :=
  match v with VNil => true | _ => false end.

(** [type LogContext map[string]interface{}] *)
Abbreviation LogContext := (gmap string value).

(** A zap field: [zap.String(k, s)] is [(k, VString s)], [zap.Any(k, v)]
    is [(k, v)]. *)
Definition Field : Type := string * value.

Definition zap_String (k s : string) : Field := (k, VString s).
Definition zap_Any (k : string) (v : value) : Field := (k, v).

(* ===================================================================== *)
(** ** Type declarations and helpers                                       *)
(* ===================================================================== *)

(** [type LogLevel string] and its constants. *)
Definition LogLevel : Type := string.
Definition LevelINFO  : LogLevel := "INFO".
Definition LevelERROR : LogLevel := "ERROR".
Definition LevelWARN  : LogLevel := "WARN".
Definition LevelDEBUG : LogLevel := "DEBUG".

(** [type LogType string] and its constants. *)
Definition LogType : Type := string.
Definition TypeNormal   : LogType := "normal".
Definition TypeHTTP     : LogType := "http".
Definition TypeError    : LogType := "error".
Definition TypeSecurity : LogType := "security".
Definition TypeAudit    : LogType := "audit".
Definition TypeDebug    : LogType := "debug".

Record Config : Type := mkConfig {
  ServiceName    : string;
  ServiceVersion : string;
  Env            : string;
  Level          : LogLevel
}.

(** The loop of [Fields]:
    [for i := 0; i < len(keysAndValues)-1; i += 2].  It runs while at
    least two arguments remain and panics on the first key that is not a
    [string]. *)
Fixpoint Fields_loop (keysAndValues : list value) (context : LogContext)
  : value + LogContext :=
  match keysAndValues with
  | k :: v :: rest =>
      match as_string k with
      | Some key => Fields_loop rest (<[key := v]> context)
      | None => inl (VString "Field keys must be strings")
      end
  | _ => inr context
  end.

(** [Fields]: [inl p] is a panic with value [p], [inr m] the contents of
    the freshly made map. *)
Definition Fields (keysAndValues : list value) : value + LogContext :=
  if negb (Nat.eqb (Nat.modulo (length keysAndValues) 2) 0)
  then inl (VString "Fields requires an even number of arguments")
  else Fields_loop keysAndValues ∅.

(* ===================================================================== *)
(** ** Time ([time.Duration], the monotonic clock)                         *)
(* ===================================================================== *)

(** A [time.Duration] is an [int64] count of nanoseconds; a clock reading
    is a number of nanoseconds on the monotonic clock. *)
Definition Duration : Type := Z.
Definition Time : Type := Z.

Definition minDuration : Duration := - 2 ^ 63.
Definition maxDuration : Duration := 2 ^ 63 - 1.

(** [t.Sub(u)]: the difference, saturated to the range of [Duration]. *)
Definition time_Sub (t u : Time) : Duration :=
  let d := t - u in
  if d <? minDuration then minDuration
  else if maxDuration <? d then maxDuration
  else d.

(** [d.Milliseconds()]: [int64(d) / 1e6], Go's integer division, which
    truncates toward zero. *)
Definition Milliseconds (d : Duration) : Z := Z.quot d 1000000.

(** [float64(n)] for an [int64] of magnitude below [2^53], which a
    [float64] holds exactly; the result is kept as the rational it
    denotes. *)
Definition float64_of_int64 (n : Z) : Q := inject_Z n.

(* ===================================================================== *)
(** ** Trace contexts (go.opentelemetry.io/otel/trace)                     *)
(* ===================================================================== *)

(** A span context carries a 16-byte trace id and an 8-byte span id, read
    here as big-endian numbers.  [IsValid] holds when neither is zero;
    [String()] is the fixed-width lowercase hexadecimal form. *)
Record SpanContext : Type := mkSpanContext {
  TraceID : N;
  SpanID  : N
}.

(** A [context.Context] as far as the logger looks into it: the span it
    carries, if any.  A nil [context.Context] is [None : option Context]. *)
Record Context : Type := mkContext {
  span : option SpanContext
}.

Definition context_Background : Context := {| span := None |}.

Definition IsValid (sc : SpanContext) : bool :=
  negb (N.eqb (TraceID sc) 0) && negb (N.eqb (SpanID sc) 0).

Definition hex_digit (n : N) : ascii :=
  match n with
  | 0%N => "0" | 1%N => "1" | 2%N => "2" | 3%N => "3"
  | 4%N => "4" | 5%N => "5" | 6%N => "6" | 7%N => "7"
  | 8%N => "8" | 9%N => "9" | 10%N => "a" | 11%N => "b"
  | 12%N => "c" | 13%N => "d" | 14%N => "e" | _ => "f"
  end%char.

Fixpoint hex_fixed (digits : nat) (n : N) : string :=
  match digits with
  | O => ""
  | S d => hex_fixed d (n / 16) +:+ String (hex_digit (n mod 16)) ""
  end.

Definition TraceID_String (sc : SpanContext) : string := hex_fixed 32 (TraceID sc).
Definition SpanID_String (sc : SpanContext) : string := hex_fixed 16 (SpanID sc).

(** [trace.SpanFromContext(ctx).SpanContext()]: the span context of the
    span in [ctx], the zero span context when [ctx] holds none. *)
Definition SpanFromContext (ctx : Context) : SpanContext :=
  match span ctx with
  | Some sc => sc
  | None => {| TraceID := 0; SpanID := 0 |}
  end.

(* ===================================================================== *)
(** ** The zap logger, as far as this package drives it                    *)
(* ===================================================================== *)

Inductive zapLevel : Type := DebugLevel | InfoLevel | WarnLevel | ErrorLevel.

(** What [buildZapLogger] fixes: the minimum level given to the core and
    the constant fields attached with [With]. *)
Record ZapLogger : Type := mkZap {
  core_level  : zapLevel;
  with_fields : list Field
}.

(** One call [l.zap.<Level>(message, fields...)]: the record handed to the
    zap logger, with the constant fields of that logger in front. *)
Record Record_ : Type := mkRecord {
  rlevel   : zapLevel;
  rmessage : string;
  rfields  : list Field
}.

(** [type Logger struct { zap *zap.Logger; config Config }]; a nil
    [*zap.Logger] is [None]. *)
Record Logger : Type := mkLogger {
  zap    : option ZapLogger;
  config : Config
}.

(* ===================================================================== *)
(** ** The request context of Fiber ([*fiber.Ctx])                         *)
(* ===================================================================== *)

(** A response body: raw text, or the value given to [c.JSON]. *)
Inductive Body : Type :=
| BodyEmpty
| BodyText (s : string)
| BodyJSON (m : gmap string value).

Record Ctx : Type := mkCtx {
  c_method      : string;
  c_path        : string;
  c_query       : string;                   (* c.Context().QueryArgs().String() *)
  c_headers     : list (string * string);   (* request headers, in order *)
  c_ip          : string;
  c_locals      : gmap string value;
  c_userContext : Context;
  c_status      : Z;                        (* c.Response().StatusCode() *)
  c_body        : Body
}.

(** [c.Get(key)]: the first header of that name, the empty string when
    there is none. *)
Fixpoint header_get (key : string) (hs : list (string * string)) : string :=
  match hs with
  | [] => ""
  | (k, v) :: rest => if String.eqb k key then v else header_get key rest
  end.

(** [c.Request().Header.VisitAll(func(key, value) { headers[key] = value })]
    on a fresh [map[string]string]. *)
Definition visit_all_headers (hs : list (string * string)) : gmap string string :=
  fold_left (fun headers kv => <[kv.1 := kv.2]> headers) hs ∅.

(** [c.Locals(key)]: nil when the key was never set. *)
Definition Locals (c : Ctx) (key : string) : value :=
  default VNil (c_locals c !! key).

(* ===================================================================== *)
(** ** The world, and computations over it                                 *)
(* ===================================================================== *)

Definition loc : Type := positive.

(** Everything the package reads or writes:
    - [instance], [once]: the two package variables of [logger.go];
    - [loggers]: the [Logger] objects, by address;
    - [maps]: the [LogContext] maps, by address (Go maps are references);
    - [emitted]: the records handed to zap loggers, oldest first;
    - [hostname]: what [os.Hostname()] returns, empty on failure;
    - [clock]: the monotonic clock;
    - [fiber]: the context of the request being served. *)
Record World : Type := mkWorld {
  instance : option loc;
  once     : bool;
  loggers  : gmap loc Logger;
  maps     : gmap loc LogContext;
  emitted  : list Record_;
  hostname : string;
  clock    : Time;
  fiber    : Ctx
}.

(** The outcome of running a Go function: it returns [a], or it panics
    with the value [recover()] would yield; either way in a new world. *)
Inductive result (A : Type) : Type :=
| Ok (a : A) (w : World)
| Panic (v : value) (w : World).
Arguments Ok {A} a w.
Arguments Panic {A} v w.

Definition M (A : Type) : Type := World -> result A.

#[global] Instance M_ret : MRet M := fun A a w => Ok a w.
#[global] Instance M_bind : MBind M := fun A B f m w =>
  match m w with
  | Ok a w' => f a w'
  | Panic v w' => Panic v w'
  end.

Definition get : M World := fun w => Ok w w.
Definition put (w' : World) : M unit := fun _ => Ok tt w'.
Definition modify (f : World -> World) : M unit := fun w => Ok tt (f w).
Definition panic {A} (v : value) : M A := fun w => Panic v w.

(** A Go [error] result: [None] is nil. *)
Definition error : Type := option string.

Definition set_instance (i : option loc) (w : World) : World :=
  mkWorld i (once w) (loggers w) (maps w) (emitted w) (hostname w) (clock w) (fiber w).
Definition set_once (b : bool) (w : World) : World :=
  mkWorld (instance w) b (loggers w) (maps w) (emitted w) (hostname w) (clock w) (fiber w).
Definition set_loggers (ls : gmap loc Logger) (w : World) : World :=
  mkWorld (instance w) (once w) ls (maps w) (emitted w) (hostname w) (clock w) (fiber w).
Definition set_maps (ms : gmap loc LogContext) (w : World) : World :=
  mkWorld (instance w) (once w) (loggers w) ms (emitted w) (hostname w) (clock w) (fiber w).
Definition set_emitted (rs : list Record_) (w : World) : World :=
  mkWorld (instance w) (once w) (loggers w) (maps w) rs (hostname w) (clock w) (fiber w).
Definition set_fiber (c : Ctx) (w : World) : World :=
  mkWorld (instance w) (once w) (loggers w) (maps w) (emitted w) (hostname w) (clock w) c.

(** *** The store of maps *)

(** A [LogContext] argument is a reference: [None] is the nil map,
    [Some r] the map at address [r].  Reading a nil map reads an empty
    one. *)
Definition deref (w : World) (context : option loc) : LogContext :=
  match context with
  | None => ∅
  | Some r => default ∅ (maps w !! r)
  end.

(** A map literal (or [make] followed by assignments): a new address. *)
Definition new_map (m : LogContext) : M (option loc) := fun w =>
  let r := fresh (dom (maps w)) in
  Ok (Some r) (set_maps (<[r := m]> (maps w)) w).

(** [context[key] = v]; assigning into a nil map panics. *)
Definition map_assign (context : option loc) (key : string) (v : value) : M unit :=
  fun w =>
    match context with
    | None => Panic (VError "assignment to entry in nil map") w
    | Some r => Ok tt (set_maps (<[r := <[key := v]> (deref w context)]> (maps w)) w)
    end.

(** [delete(context, key)]; a no-op on a nil map. *)
Definition map_delete (context : option loc) (key : string) : M unit :=
  fun w =>
    match context with
    | None => Ok tt w
    | Some r => Ok tt (set_maps (<[r := delete key (deref w context)]> (maps w)) w)
    end.


(* ===================================================================== *)
(** ** logger.go                                                           *)
(* ===================================================================== *)

Definition nil_dereference : value :=
  VError "invalid memory address or nil pointer dereference".

(** [getZapLevel]: the switch on [l.config.Level]. *)
Definition getZapLevel (cfg : Config) : zapLevel :=
  if String.eqb (Level cfg) LevelDEBUG then DebugLevel
  else if String.eqb (Level cfg) LevelWARN then WarnLevel
  else if String.eqb (Level cfg) LevelERROR then ErrorLevel
  else InfoLevel.

(** [buildZapLogger]: the core gets [getZapLevel()], the logger the four
    constant fields; the host name is read from the system. *)
Definition buildZapLogger (cfg : Config) : M ZapLogger := fun w =>
  let hostname := hostname w in
  Ok {| core_level := getZapLevel cfg;
        with_fields := [ zap_String "service.name" (ServiceName cfg);
                         zap_String "service.version" (ServiceVersion cfg);
                         zap_String "env" (Env cfg);
                         zap_String "host.name" hostname ] |} w.

(** [once.Do(f)]: runs [f] unless a call of [Do] has completed before,
    and marks the guard when [f] is over. *)
Definition once_Do (f : M unit) : M unit := fun w =>
  if once w then Ok tt w
  else match f w with
       | Ok _ w' => Ok tt (set_once true w')
       | Panic v w' => Panic v (set_once true w')
       end.

(** [&Logger{...}]: a new [Logger] object. *)
Definition new_logger (lg : Logger) : M loc := fun w =>
  let l := fresh (dom (loggers w)) in
  Ok l (set_loggers (<[l := lg]> (loggers w)) w).

(** [Initialize]. *)
Definition Initialize (config : Config) : M (option loc) :=
  _ ← once_Do (
        l ← new_logger {| config := config; zap := None |};
        _ ← modify (set_instance (Some l));
        z ← buildZapLogger config;
        modify (fun w => set_loggers
                  (<[l := {| config := config; zap := Some z |}]> (loggers w)) w));
  w ← get;
  mret (instance w).

(** [GetInstance]. *)
Definition GetInstance : M loc := fun w =>
  match instance w with
  | None => Panic (VString "Logger not initialized. Call Initialize() first.") w
  | Some l => Ok l w
  end.

(** [getTraceContext]. *)
Definition getTraceContext (ctx : option Context) : list Field :=
  match ctx with
  | None => []
  | Some ctx =>
      let spanContext := SpanFromContext ctx in
      if negb (IsValid spanContext) then []
      else [ zap_String "trace_id" (TraceID_String spanContext);
             zap_String "span_id" (SpanID_String spanContext) ]
  end.

(** [buildFields].  Go ranges over a map in an unspecified order;
    [map_to_list] fixes one, and the properties below only use membership. *)
Definition buildFields (ctx : option Context) (logType : LogType)
    (context : LogContext) : list Field :=
  let fields := [ zap_String "log_type" logType ] in
  let fields := fields ++ getTraceContext ctx in
  fold_left (fun fields kv => fields ++ [zap_Any kv.1 kv.2])
            (map_to_list context) fields.

(** [l.zap.<Level>(message, fields...)]: the call hands the record to
    the zap logger.  Whether the logger then writes it is decided by its
    core, see [written] below. *)
Definition zap_log (lvl : zapLevel) (l : loc) (message : string)
    (fields : list Field) : M unit := fun w =>
  match loggers w !! l with
  | Some lg =>
      match zap lg with
      | Some z =>
          Ok tt (set_emitted
                   (emitted w ++ [mkRecord lvl message (with_fields z ++ fields)]) w)
      | None => Panic nil_dereference w
      end
  | None => Panic nil_dereference w
  end.

(** The numeric values of [zapcore.Level]: Debug < Info < Warn < Error. *)
Definition level_rank (lvl : zapLevel) : Z :=
  match lvl with
  | DebugLevel => -1
  | InfoLevel => 0
  | WarnLevel => 1
  | ErrorLevel => 2
  end.

(** The level gate of the core that [buildZapLogger] makes with
    [zapcore.NewCore(_, _, l.getZapLevel())]: a record of level [lvl] is
    enabled when [lvl] is not below the level [enab] given to the core. *)
Definition Enabled (enab lvl : zapLevel) : bool :=
  level_rank enab <=? level_rank lvl.

(** What the logger [z] writes to its sink, out of the records handed to
    it: those its core enables, in the same order. *)
Definition written (z : ZapLogger) (records : list Record_) : list Record_ :=
  List.filter (fun rec => Enabled (core_level z) (rlevel rec)) records.

Definition Info (l : loc) (ctx : option Context) (message : string)
    (context : option loc) : M unit :=
  w ← get;
  zap_log InfoLevel l message (buildFields ctx TypeNormal (deref w context)).

Definition Error (l : loc) (ctx : option Context) (message : string)
    (context : option loc) : M unit :=
  w ← get;
  _ ← match deref w context !! "error" ≫= as_error with
      | Some err =>
          _ ← map_assign context "error_message" (VString err);
          _ ← map_assign context "error_type" (VString "error");
          map_delete context "error"
      | None => mret tt
      end;
  w ← get;
  zap_log ErrorLevel l message (buildFields ctx TypeError (deref w context)).

Definition Warn (l : loc) (ctx : option Context) (message : string)
    (context : option loc) : M unit :=
  w ← get;
  zap_log WarnLevel l message (buildFields ctx TypeNormal (deref w context)).

Definition Debug (l : loc) (ctx : option Context) (message : string)
    (context : option loc) : M unit :=
  w ← get;
  zap_log DebugLevel l message (buildFields ctx TypeDebug (deref w context)).

Definition HTTP (l : loc) (ctx : option Context) (message : string)
    (context : option loc) : M unit :=
  w ← get;
  zap_log InfoLevel l message (buildFields ctx TypeHTTP (deref w context)).

Definition Security (l : loc) (ctx : option Context) (message : string)
    (context : option loc) : M unit :=
  w ← get;
  zap_log WarnLevel l message (buildFields ctx TypeSecurity (deref w context)).

Definition Audit (l : loc) (ctx : option Context) (message : string)
    (context : option loc) : M unit :=
  w ← get;
  zap_log InfoLevel l message (buildFields ctx TypeAudit (deref w context)).

(* ===================================================================== *)
(** ** middleware.go                                                       *)
(* ===================================================================== *)

Record MiddlewareOptions : Type := mkOptions {
  ExcludePaths   : list string;
  IncludeHeaders : bool;
  IncludeBody    : bool
}.

(** A [fiber.Handler], given what [c.Next()] does. *)
Definition Handler : Type := M error -> M error.

Definition time_Now : M Time := fun w => Ok (clock w) w.

(** [time.Since(t)] is [time.Now().Sub(t)]. *)
Definition time_Since (t : Time) : M Duration :=
  now ← time_Now;
  mret (time_Sub now t).

(** [MeasureDuration]. *)
Definition MeasureDuration (start : Time) : M Q :=
  d ← time_Since start;
  mret (float64_of_int64 (Milliseconds d)).

(** The loop over [opts.ExcludePaths]: [path == excludePath]. *)
Fixpoint is_excluded (path : string) (excludePaths : list string) : bool :=
  match excludePaths with
  | [] => false
  | excludePath :: rest =>
      if String.eqb path excludePath then true else is_excluded path rest
  end.

(** [fmt.Sprintf("%s %s %d", method, path, status)] *)
Definition Sprintf_s_s_d (method path : string) (status : Z) : string :=
  method +:+ " " +:+ path +:+ " " +:+ pretty status.

Definition c_Status (code : Z) : M unit :=
  modify (fun w =>
    let c := fiber w in
    set_fiber (mkCtx (c_method c) (c_path c) (c_query c) (c_headers c) (c_ip c)
                     (c_locals c) (c_userContext c) code (c_body c)) w).

(** [c.JSON(data)]: the body becomes the encoding of [data]; encoding the
    values of this model does not fail. *)
Definition c_JSON (data : gmap string value) : M error :=
  _ ← modify (fun w =>
    let c := fiber w in
    set_fiber (mkCtx (c_method c) (c_path c) (c_query c) (c_headers c) (c_ip c)
                     (c_locals c) (c_userContext c) (c_status c) (BodyJSON data)) w);
  mret None.

Definition when (b : bool) (m : M unit) : M unit := if b then m else mret tt.

(** The closure returned by [FiberMiddleware]. *)
Definition FiberMiddleware_handler (opts : MiddlewareOptions) (logger : loc)
    (next : M error) : M error :=
  w ← get;
  let path := c_path (fiber w) in
  if is_excluded path (ExcludePaths opts) then next
  else
    startTime ← time_Now;
    err ← next;
    duration ← time_Since startTime;
    w ← get;
    let c := fiber w in
    context ← new_map
      (<["user_agent" := VString (header_get "User-Agent" (c_headers c))]>
       (<["ip" := VString (c_ip c)]>
       (<["duration_ms" := VInt (Milliseconds duration)]>
       (<["status_code" := VInt (c_status c)]>
       (<["path" := VString path]>
       (<["method" := VString (c_method c)]> ∅))))));
    _ ← when (0 <? Z.of_nat (String.length (c_query c)))
             (map_assign context "query" (VString (c_query c)));
    _ ← when (IncludeHeaders opts)
             (map_assign context "headers"
                (VStringMap (visit_all_headers (c_headers c))));
    _ ← (let userID := Locals c "user_id" in
         when (negb (is_nil userID)) (map_assign context "user_id" userID));
    let message := Sprintf_s_s_d (c_method c) path (c_status c) in
    let statusCode := c_status c in
    let ctx := Some (c_userContext c) in
    _ ← (if 500 <=? statusCode then Error logger ctx message context
         else if 400 <=? statusCode then Warn logger ctx message context
         else HTTP logger ctx message context);
    mret err.

(** [FiberMiddleware]. *)
Definition FiberMiddleware (opts : option MiddlewareOptions) : M Handler :=
  let opts := default {| ExcludePaths := []; IncludeHeaders := false;
                         IncludeBody := false |} opts in
  logger ← GetInstance;
  mret (FiberMiddleware_handler opts logger).

(** The deferred function of the recovery handler, run with [r], the
    non-nil value that [recover()] returned. *)
Definition recovered (logger : loc) (r : value) : M error :=
  w ← get;
  let c := fiber w in
  context ← new_map
    (<["status_code" := VInt 500]>
     (<["panic" := r]>
     (<["path" := VString (c_path c)]>
     (<["method" := VString (c_method c)]> ∅))));
  _ ← Error logger (Some (c_userContext c)) "Panic recovered" context;
  _ ← c_Status 500;
  c_JSON (<["error" := VString "internal server error"]> ∅).

(** The closure returned by [RecoveryMiddleware]:
    [defer func() { if r := recover(); r != nil { ... } }()] around
    [return c.Next()].  When [c.Next()] returns, [recover()] is nil and
    the result stands.  When it panics, [recover()] stops the panic and
    yields its value [r]; the named result [err] is what the deferred
    function assigns, nil if it assigns nothing.  (Since Go 1.21 a
    panicking goroutine never sees a nil [r]: [panic(nil)] arrives as a
    [*runtime.PanicNilError].) *)
Definition RecoveryMiddleware_handler (logger : loc) (next : M error) : M error :=
  fun w =>
    match next w with
    | Ok err w1 => Ok err w1
    | Panic r w1 => if is_nil r then Ok None w1 else recovered logger r w1
    end.

(** [RecoveryMiddleware]. *)
Definition RecoveryMiddleware : M Handler :=
  logger ← GetInstance;
  mret (RecoveryMiddleware_handler logger).

(* ===================================================================== *)
(** ** Vocabulary of the properties                                        *)
(* ===================================================================== *)

(** The arguments of [Fields] taken two by two; a last argument without a
    partner forms no pair. *)
Fixpoint arg_pairs (keysAndValues : list value) : list (value * value) :=
  match keysAndValues with
  | k :: v :: rest => (k, v) :: arg_pairs rest
  | _ => []
  end.

(** Every key position holds a [string]. *)
Definition string_keyed (keysAndValues : list value) : Prop :=
  Forall (fun kv => is_Some (as_string kv.1)) (arg_pairs keysAndValues).

(** The key strings, in order of appearance. *)
Definition key_strings (keysAndValues : list value) : list string :=
  omap (fun kv => as_string kv.1) (arg_pairs keysAndValues).

(** Pair number [i] is the last one with key [k], and its value is [v]. *)
Definition last_occurrence (keysAndValues : list value) (k : string)
    (i : nat) (v : value) : Prop :=
  arg_pairs keysAndValues !! i = Some (VString k, v) /\
  forall j v', (i < j)%nat -> arg_pairs keysAndValues !! j <> Some (VString k, v').

(** The world a computation ends in, returning or panicking. *)
Definition world_of {A} (r : result A) : World :=
  match r with Ok _ w => w | Panic _ w => w end.

(** Running [Initialize] once per configuration, in order. *)
Fixpoint Initialize_all (configs : list Config) : M (list (option loc)) :=
  match configs with
  | [] => mret []
  | c :: cs =>
      h ← Initialize c;
      hs ← Initialize_all cs;
      mret (h :: hs)
  end.

(** A process in which nothing has run yet, serving the request [c]. *)
Definition initial_world (host : string) (c : Ctx) : World :=
  {| instance := None; once := false; loggers := ∅; maps := ∅;
     emitted := []; hostname := host; clock := 0; fiber := c |}.

(** The field map the access log has built when it dispatches. *)
Definition access_context (opts : MiddlewareOptions) (path : string)
    (duration : Duration) (c : Ctx) : LogContext :=
  let m0 : LogContext :=
    <["user_agent" := VString (header_get "User-Agent" (c_headers c))]>
    (<["ip" := VString (c_ip c)]>
    (<["duration_ms" := VInt (Milliseconds duration)]>
    (<["status_code" := VInt (c_status c)]>
    (<["path" := VString path]>
    (<["method" := VString (c_method c)]> ∅))))) in
  let m1 := if 0 <? Z.of_nat (String.length (c_query c))
            then <["query" := VString (c_query c)]> m0 else m0 in
  let m2 := if IncludeHeaders opts
            then <["headers" := VStringMap (visit_all_headers (c_headers c))]> m1
            else m1 in
  if negb (is_nil (Locals c "user_id"))
  then <["user_id" := Locals c "user_id"]> m2 else m2.

(** The severity and the [log_type] of the three entry points the
    access log chooses from: [Error], [Warn] and [HTTP]. *)
Definition access_dispatch (statusCode : Z) : zapLevel * LogType :=
  if 500 <=? statusCode then (ErrorLevel, TypeError)
  else if 400 <=? statusCode then (WarnLevel, TypeNormal)
  else (InfoLevel, TypeHTTP).

(** The field map of the recovery log. *)
Definition panic_context (r : value) (c : Ctx) : LogContext :=
  <["status_code" := VInt 500]>
  (<["panic" := r]>
  (<["path" := VString (c_path c)]>
  (<["method" := VString (c_method c)]> ∅))).

(** Sample data for the closed statements below. *)
Definition sample_request : Ctx :=
  {| c_method := "GET"; c_path := "/healthz"; c_query := "";
     c_headers := [("User-Agent", "curl/8.0")]; c_ip := "10.0.0.7";
     c_locals := ∅; c_userContext := context_Background;
     c_status := 200; c_body := BodyEmpty |}.

Definition sample_config : Config :=
  {| ServiceName := "svc"; ServiceVersion := "1.0.0"; Env := "test";
     Level := LevelINFO |}.

(** The zap logger that [buildZapLogger] makes for [sample_config] on a
    machine called ["host"]. *)
Definition sample_zap : ZapLogger :=
  {| core_level := getZapLevel sample_config;
     with_fields := [ zap_String "service.name" (ServiceName sample_config);
                      zap_String "service.version" (ServiceVersion sample_config);
                      zap_String "env" (Env sample_config);
                      zap_String "host.name" "host" ] |}.

(** A world after initialisation: one logger at address 1. *)
Definition sample_world : World :=
  {| instance := Some 1%positive; once := true;
     loggers := {[ 1%positive := {| zap := Some sample_zap; config := sample_config |} ]};
     maps := ∅; emitted := []; hostname := "host"; clock := 0;
     fiber := sample_request |}.

(** A downstream handler that takes [ns] nanoseconds, sets the status
    and returns nil. *)
Definition respond (ns : Z) (status : Z) : M error :=
  _ ← modify (fun w =>
        mkWorld (instance w) (once w) (loggers w) (maps w) (emitted w)
                (hostname w) (clock w + ns) (fiber w));
  _ ← c_Status status;
  mret None.

(** The sample world in which the caller holds the map [m] at address 1. *)
Definition world_with_map (m : LogContext) : World :=
  set_maps (<[1%positive := m]> ∅) sample_world.

(** [Fields("error", testErr, "code", "ERR_500")] with an error object. *)
Definition error_object_map : LogContext :=
  <["code" := VString "ERR_500"]> (<["error" := VError "test error"]> ∅).

(** [Fields("error", err.Error())]: the message as a plain string. *)
Definition error_string_map : LogContext :=
  <["error" := VString "insufficient funds"]> ∅.

(** Options that exclude the health check only. *)
Definition sample_options : MiddlewareOptions :=
  {| ExcludePaths := ["/health"]; IncludeHeaders := false; IncludeBody := false |}.

(** The request that asks for the excluded path itself. *)
Definition health_request : Ctx :=
  mkCtx (c_method sample_request) "/health" (c_query sample_request)
        (c_headers sample_request) (c_ip sample_request)
        (c_locals sample_request) (c_userContext sample_request)
        (c_status sample_request) (c_body sample_request).

(** A downstream handler that panics with [v]. *)
Definition panics_with (v : value) : M error := panic v.

(** A configuration that asks for errors only, the zap logger that
    [buildZapLogger] makes for it, and the sample world with that logger
    as the singleton. *)
Definition quiet_config : Config :=
  {| ServiceName := "svc"; ServiceVersion := "1.0.0"; Env := "prod";
     Level := LevelERROR |}.

Definition quiet_zap : ZapLogger :=
  {| core_level := getZapLevel quiet_config;
     with_fields := [ zap_String "service.name" (ServiceName quiet_config);
                      zap_String "service.version" (ServiceVersion quiet_config);
                      zap_String "env" (Env quiet_config);
                      zap_String "host.name" "host" ] |}.

Definition quiet_world : World :=
  {| instance := Some 1%positive; once := true;
     loggers := {[ 1%positive := {| zap := Some quiet_zap; config := quiet_config |} ]};
     maps := ∅; emitted := []; hostname := "host"; clock := 0;
     fiber := sample_request |}.

(** Arguments of [Fields] that repeat a key. *)
Definition repeated_key_args : list value :=
  [VString "a"; VInt 1; VString "a"; VInt 2].

(* ===================================================================== *)
(** * Properties                                                           *)
(* ===================================================================== *)

(** ** Lists of alternating keys and values *)

Section ArgumentLists.

(** Induction two arguments at a time, the way the loop of [Fields]
    walks its arguments. *)
Lemma args_ind (P : list value -> Prop) :
  P [] ->
  (forall x, P [x]) ->
  (forall k v rest, P rest -> P (k :: v :: rest)) ->
  forall kvs, P kvs.
Proof.
  intros Hnil Hone Hstep.
  fix IH 1.
  intros [|k [|v rest]].
  - exact Hnil.
  - apply Hone.
  - apply Hstep, IH.
Qed.

Lemma length_arg_pairs kvs :
  length (arg_pairs kvs) = (length kvs / 2)%nat.
Proof.
  induction kvs as [|x|k v rest IH] using args_ind; [done..|].
  cbn [arg_pairs length]. rewrite IH.
  change (S (S (length rest))) with (1 * 2 + length rest)%nat.
  by rewrite Nat.div_add_l.
Qed.

(** Pair [i] sits at positions [2i] and [2i+1]. *)
Lemma arg_pairs_lookup kvs i k v :
  arg_pairs kvs !! i = Some (k, v) <->
  kvs !! (2 * i)%nat = Some k /\ kvs !! (2 * i + 1)%nat = Some v.
Proof.
  revert i.
  induction kvs as [|x|k0 v0 rest IH] using args_ind; intros i.
  - split; [done | by intros [? _]].
  - split; [done |]. destruct i as [|i]; [by intros [_ ?] |].
    replace (2 * S i)%nat with (S (S (2 * i))) by lia. by intros [? _].
  - destruct i as [|i].
    + cbn. split; [by intros [= -> ->] | by intros [[= ->] [= ->]]].
    + replace (2 * S i)%nat with (S (S (2 * i))) by lia.
      replace (S (S (2 * i)) + 1)%nat with (S (S (2 * i + 1))) by lia.
      cbn [arg_pairs]. rewrite !lookup_cons. apply IH.
Qed.

Lemma string_keyed_cons k v rest :
  string_keyed (k :: v :: rest) <->
  (exists key, k = VString key) /\ string_keyed rest.
Proof.
  unfold string_keyed. cbn [arg_pairs]. rewrite Forall_cons. cbn.
  split; intros [Hk Hrest]; split; try done.
  - destruct k; try (by destruct Hk as [? [=]]). eauto.
  - destruct Hk as [key ->]. by eexists.
Qed.

Lemma key_strings_cons key v rest :
  key_strings (VString key :: v :: rest) = key :: key_strings rest.
Proof. done. Qed.

Lemma length_key_strings kvs :
  string_keyed kvs -> length (key_strings kvs) = (length kvs / 2)%nat.
Proof.
  rewrite <- length_arg_pairs.
  induction kvs as [|x|k v rest IH] using args_ind; [done..|].
  intros [[key ->] Hrest]%string_keyed_cons.
  rewrite key_strings_cons. cbn [arg_pairs length]. by rewrite IH.
Qed.

Lemma elem_of_key_strings kvs key :
  key ∈ key_strings kvs <->
  exists i v, arg_pairs kvs !! i = Some (VString key, v).
Proof.
  unfold key_strings. rewrite list_elem_of_omap. split.
  - intros ([k v] & [i Hi]%list_elem_of_lookup & Hk).
    destruct k; try done. cbn in Hk. injection Hk as ->. eauto.
  - intros (i & v & Hi). exists (VString key, v). split; [|done].
    apply list_elem_of_lookup. eauto.
Qed.

Lemma key_strings_lookup kvs i key v :
  string_keyed kvs ->
  arg_pairs kvs !! i = Some (VString key, v) ->
  key_strings kvs !! i = Some key.
Proof.
  revert i.
  induction kvs as [|x|k0 v0 rest IH] using args_ind; intros i; [done..|].
  intros [[key0 ->] Hrest]%string_keyed_cons.
  rewrite key_strings_cons. destruct i as [|i]; cbn.
  - by intros [= -> ->].
  - by apply IH.
Qed.

(** A key that occurs has a last occurrence. *)
Lemma last_occurrence_exists kvs key :
  key ∈ key_strings kvs -> exists i v, last_occurrence kvs key i v.
Proof.
  induction kvs as [|x|k0 v0 rest IH] using args_ind.
  - by intros ?%elem_of_nil.
  - by intros ?%elem_of_nil.
  - intros Hin. destruct (decide (key ∈ key_strings rest)) as [Hrest|Hrest].
    + destruct (IH Hrest) as (i & v & Hi & Hlast).
      exists (S i), v. split; [done|].
      intros [|j] v' Hj; [lia|]. cbn. apply Hlast. lia.
    + apply elem_of_key_strings in Hin as ([|i] & v & Hi).
      * cbn in Hi. injection Hi as -> ->.
        exists 0%nat, v. split; [done|].
        intros [|j] v' Hj; [lia|]. cbn. intros Hj'.
        apply Hrest, elem_of_key_strings. eauto.
      * exfalso. apply Hrest, elem_of_key_strings. by exists i, v.
Qed.

Lemma length_remove_dups_le (l : list string) :
  (length (remove_dups l) <= length l)%nat.
Proof.
  induction l as [|x l IH]; [done|].
  cbn. destruct (decide_rel _ _ _); cbn; lia.
Qed.

Lemma length_remove_dups_lt (l : list string) :
  ~ NoDup l -> (length (remove_dups l) < length l)%nat.
Proof.
  induction l as [|x l IH]; intros Hdup.
  - destruct Hdup. constructor.
  - cbn. destruct (decide_rel _ _ _) as [Hin|Hin]; cbn.
    + pose proof (length_remove_dups_le l). lia.
    + assert (~ NoDup l) as Hl by (intros Hl; apply Hdup; by constructor).
      apply IH in Hl. lia.
Qed.

Lemma length_remove_dups_NoDup (l : list string) :
  NoDup l -> remove_dups l = l.
Proof.
  induction 1 as [|x l Hx Hl IH]; [done|].
  cbn. destruct (decide_rel _ _ _); [done|]. by rewrite IH.
Qed.

Lemma size_list_to_set_remove_dups (l : list string) :
  size (list_to_set l : gset string) = length (remove_dups l).
Proof.
  rewrite <- (size_list_to_set (C := gset string) (remove_dups l))
    by apply NoDup_remove_dups.
  f_equal. apply set_eq. intros x.
  by rewrite !elem_of_list_to_set, elem_of_remove_dups.
Qed.

End ArgumentLists.

(** ** [Fields] *)

Section FieldsLoop.

(** What the loop returns on string-keyed arguments, starting from any
    map [context]. *)
Lemma Fields_loop_returns kvs :
  forall context : LogContext,
    string_keyed kvs ->
    exists m : LogContext,
      Fields_loop kvs context = inr m /\
      dom m = dom context ∪ list_to_set (key_strings kvs) /\
      (forall key, key ∉ key_strings kvs -> m !! key = context !! key) /\
      (forall key i v, last_occurrence kvs key i v -> m !! key = Some v).
Proof.
  induction kvs as [|x|k v rest IH] using args_ind; intros context Hkeys.
  - exists context. split; [done|]. split; [cbn; set_solver|].
    split; [done|]. by intros key i v [? _].
  - exists context. split; [done|]. split; [cbn; set_solver|].
    split; [done|]. by intros key i v [? _].
  - apply string_keyed_cons in Hkeys as [[key0 ->] Hrest].
    destruct (IH (<[key0 := v]> context) Hrest) as (m & Hm & Hdom & Hout & Hlast).
    exists m. cbn [Fields_loop as_string]. rewrite key_strings_cons.
    split; [done|]. split; [|split].
    + rewrite Hdom, dom_insert_L. set_solver.
    + intros key [Hne Hnin]%not_elem_of_cons.
      rewrite Hout by done. by rewrite lookup_insert_ne.
    + intros key [|i] v' [Hi Hafter].
      * cbn in Hi. injection Hi as -> ->.
        rewrite Hout; [by rewrite lookup_insert_eq|].
        intros (j & v'' & Hj)%elem_of_key_strings.
        by apply (Hafter (S j) v''); [lia|].
      * apply (Hlast key i v'). split; [done|].
        intros j v'' Hj. apply (Hafter (S j) v''). lia.
Qed.

(** The loop panics as soon as some key position holds no string. *)
Lemma Fields_loop_panics kvs :
  forall context : LogContext,
    Exists (fun kv => as_string kv.1 = None) (arg_pairs kvs) ->
    Fields_loop kvs context = inl (VString "Field keys must be strings").
Proof.
  induction kvs as [|x|k v rest IH] using args_ind; intros context Hbad.
  - by apply Exists_nil in Hbad.
  - by apply Exists_nil in Hbad.
  - cbn [arg_pairs] in Hbad. cbn [Fields_loop].
    destruct (as_string k) as [key|] eqn:Hk; [|done].
    apply Exists_cons in Hbad as [Hbad|Hbad]; [cbn in Hbad; congruence|].
    by apply IH.
Qed.

Lemma Fields_even kvs :
  Nat.Even (length kvs) -> Fields kvs = Fields_loop kvs ∅.
Proof.
  intros [n Hn]. unfold Fields.
  replace (length kvs `mod` 2)%nat with 0%nat; [done|].
  rewrite Hn, Nat.mul_comm. by rewrite Nat.Div0.mod_mul.
Qed.

Lemma Fields_odd kvs :
  Nat.Odd (length kvs) ->
  Fields kvs = inl (VString "Fields requires an even number of arguments").
Proof.
  intros [n Hn]. unfold Fields.
  replace (length kvs `mod` 2)%nat with 1%nat; [done|].
  rewrite Hn, Nat.add_comm, Nat.mul_comm. by rewrite Nat.Div0.mod_add.
Qed.

Lemma Fields_returns kvs :
  Nat.Even (length kvs) -> string_keyed kvs ->
  exists m : LogContext,
    Fields kvs = inr m /\
    dom m = list_to_set (key_strings kvs) /\
    (forall key i v, last_occurrence kvs key i v -> m !! key = Some v) /\
    size m = length (remove_dups (key_strings kvs)).
Proof.
  intros Heven Hkeys.
  destruct (Fields_loop_returns kvs ∅ Hkeys) as (m & Hm & Hdom & _ & Hlast).
  exists m. rewrite Fields_even by done.
  assert (dom m = list_to_set (key_strings kvs)) as Hdom'
    by (rewrite Hdom, dom_empty_L; set_solver).
  repeat split; try done.
  by rewrite <- size_dom, Hdom', size_list_to_set_remove_dups.
Qed.

End FieldsLoop.

(** C5 (as amended).  On an argument list of even length whose key
    positions all hold strings, [Fields] returns a map that binds exactly
    the supplied keys, each to the value of its last occurrence; the map has
    at most [count/2] entries, and exactly [count/2] entries, one for every
    supplied pair, when the keys are pairwise distinct.  On a list of odd
    length, and on a list of even length with a non-string in a key
    position, [Fields] panics. *)
Theorem Fields_pairs_or_panic (keysAndValues : list value) :
  (Nat.Even (length keysAndValues) -> string_keyed keysAndValues ->
   exists m : LogContext,
     Fields keysAndValues = inr m /\
     (forall key, is_Some (m !! key) <-> key ∈ key_strings keysAndValues) /\
     (forall key i v, last_occurrence keysAndValues key i v -> m !! key = Some v) /\
     (size m <= length keysAndValues / 2)%nat /\
     (NoDup (key_strings keysAndValues) ->
      size m = (length keysAndValues / 2)%nat /\
      forall key i v,
        arg_pairs keysAndValues !! i = Some (VString key, v) -> m !! key = Some v)) /\
  (Nat.Odd (length keysAndValues) ->
   exists p, Fields keysAndValues = inl p) /\
  (Nat.Even (length keysAndValues) ->
   Exists (fun kv => as_string kv.1 = None) (arg_pairs keysAndValues) ->
   exists p, Fields keysAndValues = inl p).
Proof.
  split; [|split].
  - intros Heven Hkeys.
    destruct (Fields_returns _ Heven Hkeys) as (m & Hm & Hdom & Hlast & Hsize).
    exists m. split; [done|]. split; [|split; [done|split]].
    + intros key. by rewrite <- elem_of_dom, Hdom, elem_of_list_to_set.
    + rewrite Hsize, <- length_key_strings by done.
      apply length_remove_dups_le.
    + intros Hnodup. split.
      * by rewrite Hsize, length_remove_dups_NoDup, length_key_strings.
      * intros key i v Hi. apply (Hlast key i v). split; [done|].
        intros j v' Hj Hj'.
        pose proof (key_strings_lookup _ _ _ _ Hkeys Hi) as Ki.
        pose proof (key_strings_lookup _ _ _ _ Hkeys Hj') as Kj.
        pose proof (NoDup_lookup _ _ _ _ Hnodup Ki Kj). lia.
  - intros Hodd. eexists. by apply Fields_odd.
  - intros Heven Hbad. eexists.
    rewrite Fields_even by done. by apply Fields_loop_panics.
Qed.

(** C5, as first stated, fails: four arguments with all-string keys give
    a map of one entry, not of two, when the two keys are the same string. *)
Lemma Fields_repeated_key_not_half :
  Nat.Even (length repeated_key_args) /\
  string_keyed repeated_key_args /\
  Fields repeated_key_args = inr (<["a" := VInt 2]> ∅) /\
  size (<["a" := VInt 2]> (∅ : LogContext)) = 1%nat /\
  (length repeated_key_args / 2)%nat = 2%nat.
Proof.
  split; [by exists 2%nat|].
  split; [by repeat constructor|].
  split; [|split; [|done]].
  - reflexivity.
  - by rewrite insert_empty, map_size_singleton.
Qed.

(** C5 at three calls: two distinct string keys, an odd number of
    arguments, and a key that is a number. *)
Lemma Fields_pairs_or_panic_witness :
  (exists m : LogContext,
     Fields [VString "key1"; VString "value1"; VString "key2"; VInt 123] = inr m /\
     size m = 2%nat /\ m !! "key2" = Some (VInt 123)) /\
  (exists p, Fields [VString "key1"; VString "value1"; VString "key2"] = inl p) /\
  (exists p, Fields [VInt 123; VString "value"] = inl p).
Proof.
  split; [|split].
  - destruct (proj1 (Fields_pairs_or_panic
                       [VString "key1"; VString "value1"; VString "key2"; VInt 123]))
      as (m & Hm & _ & _ & _ & Hdistinct).
    + by exists 2%nat.
    + by repeat constructor.
    + exists m. split; [exact Hm|].
      destruct Hdistinct as [Hsize Hpair]; [compute_done|].
      split; [exact Hsize|]. by apply (Hpair "key2" 1%nat (VInt 123)).
  - apply (proj1 (proj2 (Fields_pairs_or_panic
                           [VString "key1"; VString "value1"; VString "key2"]))).
    by exists 1%nat.
  - apply (proj2 (proj2 (Fields_pairs_or_panic [VInt 123; VString "value"]))).
    + by exists 1%nat.
    + by left.
Defined.

(** C10.  When an even-length, string-keyed argument list repeats a key,
    [Fields] returns a map that binds that key to the value of its last
    occurrence; the map has as many entries as there are distinct keys,
    which is strictly fewer than [count/2]. *)
Theorem Fields_duplicate_key_last_wins (keysAndValues : list value)
    (key : string) (i j : nat) (vi vj : value) :
  Nat.Even (length keysAndValues) ->
  string_keyed keysAndValues ->
  i <> j ->
  arg_pairs keysAndValues !! i = Some (VString key, vi) ->
  arg_pairs keysAndValues !! j = Some (VString key, vj) ->
  exists m : LogContext,
    Fields keysAndValues = inr m /\
    (exists n v, last_occurrence keysAndValues key n v /\ m !! key = Some v) /\
    size m = length (remove_dups (key_strings keysAndValues)) /\
    (size m < length keysAndValues / 2)%nat.
Proof.
  intros Heven Hkeys Hij Hi Hj.
  destruct (Fields_returns _ Heven Hkeys) as (m & Hm & Hdom & Hlast & Hsize).
  exists m. split; [done|]. split; [|split; [done|]].
  - destruct (last_occurrence_exists keysAndValues key) as (n & v & Hn).
    { apply elem_of_key_strings. eauto. }
    exists n, v. split; [done|]. by apply (Hlast key n v).
  - rewrite Hsize, <- length_key_strings by done.
    apply length_remove_dups_lt. intros Hnodup.
    apply Hij.
    eapply (NoDup_lookup _ _ _ _ Hnodup); by eapply key_strings_lookup.
Qed.

Lemma Fields_duplicate_key_last_wins_witness :
  exists m : LogContext,
    Fields repeated_key_args = inr m /\
    (exists n v, last_occurrence repeated_key_args "a" n v /\ m !! "a" = Some v) /\
    size m = length (remove_dups (key_strings repeated_key_args)) /\
    (size m < length repeated_key_args / 2)%nat.
Proof.
  apply (Fields_duplicate_key_last_wins repeated_key_args "a" 0 1 (VInt 1) (VInt 2)).
  - by exists 2%nat.
  - by repeat constructor.
  - discriminate.
  - reflexivity.
  - reflexivity.
Defined.

(** ** The field builder *)

Section FieldBuilder.

Lemma fold_left_snoc_fields (l acc : list Field) :
  fold_left (fun fields kv => fields ++ [zap_Any kv.1 kv.2]) l acc = acc ++ l.
Proof.
  revert acc. induction l as [|[k v] l IH]; intros acc; cbn.
  - by rewrite app_nil_r.
  - rewrite IH. by rewrite <- app_assoc.
Qed.

(** The field list is [log_type], then the trace fields, then the
    entries of the caller's map. *)
Lemma buildFields_eq ctx logType (context : LogContext) :
  buildFields ctx logType context =
  zap_String "log_type" logType :: getTraceContext ctx ++ map_to_list context.
Proof. unfold buildFields. by rewrite fold_left_snoc_fields. Qed.

Lemma elem_of_buildFields ctx logType (context : LogContext) k v :
  (k, v) ∈ buildFields ctx logType context <->
  (k, v) = zap_String "log_type" logType \/
  (k, v) ∈ getTraceContext ctx \/
  context !! k = Some v.
Proof.
  rewrite buildFields_eq, elem_of_cons, elem_of_app.
  by rewrite elem_of_map_to_list.
Qed.

Lemma caller_field_in_buildFields ctx logType (context : LogContext) k v :
  context !! k = Some v -> (k, v) ∈ buildFields ctx logType context.
Proof. intros. apply elem_of_buildFields. auto. Qed.

Lemma IsValid_zero : IsValid {| TraceID := 0; SpanID := 0 |} = false.
Proof. reflexivity. Qed.

Lemma getTraceContext_valid c sc :
  span c = Some sc -> IsValid sc = true ->
  getTraceContext (Some c) =
  [ zap_String "trace_id" (TraceID_String sc);
    zap_String "span_id" (SpanID_String sc) ].
Proof.
  intros Hspan Hvalid. unfold getTraceContext, SpanFromContext.
  by rewrite Hspan, Hvalid.
Qed.

Lemma getTraceContext_invalid ctx :
  (ctx = None \/ exists c, ctx = Some c /\ IsValid (SpanFromContext c) = false) ->
  getTraceContext ctx = [].
Proof.
  intros [-> | (c & -> & Hinvalid)]; [done|].
  unfold getTraceContext. by rewrite Hinvalid.
Qed.

Lemma length_string_app (s1 s2 : string) :
  String.length (s1 +:+ s2) = (String.length s1 + String.length s2)%nat.
Proof.
  induction s1 as [|a s1 IH]; [done|].
  change (String a s1 +:+ s2) with (String a (s1 +:+ s2)).
  cbn [String.length]. by rewrite IH.
Qed.

(** The identifiers are printed with a fixed number of digits. *)
Lemma length_hex_fixed digits n : String.length (hex_fixed digits n) = digits.
Proof.
  revert n. induction digits as [|d IH]; intros n; cbn [hex_fixed]; [done|].
  rewrite length_string_app, IH. cbn. lia.
Qed.

End FieldBuilder.

(** C4 (as amended).  When the trace context is present and carries a
    valid trace/span pair, the built field list contains [trace_id] and
    [span_id], the 32- and 16-digit hexadecimal forms of the identifiers.
    When the context is nil, or present without a valid span, the builder
    adds neither field: the list is [log_type] followed by the caller's
    entries, so a field of either name is in it only if the caller's own
    map binds that key. *)
Theorem trace_fields_follow_context (ctx : option Context) (logType : LogType)
    (context : LogContext) :
  (forall c sc,
     ctx = Some c -> span c = Some sc -> IsValid sc = true ->
     getTraceContext ctx =
       [ ("trace_id", VString (TraceID_String sc));
         ("span_id", VString (SpanID_String sc)) ] /\
     ("trace_id", VString (TraceID_String sc)) ∈ buildFields ctx logType context /\
     ("span_id", VString (SpanID_String sc)) ∈ buildFields ctx logType context /\
     String.length (TraceID_String sc) = 32%nat /\
     String.length (SpanID_String sc) = 16%nat) /\
  ((ctx = None \/ exists c, ctx = Some c /\ IsValid (SpanFromContext c) = false) ->
     getTraceContext ctx = [] /\
     buildFields ctx logType context =
       ("log_type", VString logType) :: map_to_list context /\
     forall k v,
       k = "trace_id" \/ k = "span_id" ->
       ((k, v) ∈ buildFields ctx logType context <-> context !! k = Some v)).
Proof.
  split.
  - intros c sc -> Hspan Hvalid.
    pose proof (getTraceContext_valid c sc Hspan Hvalid) as Htrace.
    split; [done|].
    split; [|split; [|split; apply length_hex_fixed]].
    + apply elem_of_buildFields. right; left. rewrite Htrace. by left.
    + apply elem_of_buildFields. right; left. rewrite Htrace. right. by left.
  - intros Hinvalid.
    pose proof (getTraceContext_invalid ctx Hinvalid) as Htrace.
    split; [done|]. split.
    + by rewrite buildFields_eq, Htrace.
    + intros k v Hk. rewrite elem_of_buildFields, Htrace. split.
      * intros [[= -> _] | [[]%elem_of_nil | H]]; [by destruct Hk | done].
      * auto.
Qed.

(** C4, as first stated, fails: with a nil context the builder adds no
    trace field, yet the built list has a [trace_id] field when the
    caller's map has one. *)
Lemma trace_id_field_without_trace_context :
  getTraceContext None = [] /\
  ("trace_id", VString "forged") ∈
    buildFields None TypeNormal (<["trace_id" := VString "forged"]> ∅).
Proof.
  split; [done|].
  apply caller_field_in_buildFields. apply lookup_insert_eq.
Qed.

Lemma trace_fields_follow_context_witness :
  (("trace_id", VString "000000000000000000000000000000ff") ∈
     buildFields (Some {| span := Some {| TraceID := 255; SpanID := 1 |} |})
                 TypeNormal ∅) /\
  buildFields None TypeNormal (<["k" := VInt 1]> ∅) =
    ("log_type", VString TypeNormal) :: map_to_list (<["k" := VInt 1]> (∅ : LogContext)) /\
  buildFields (Some context_Background) TypeHTTP ∅ =
    ("log_type", VString TypeHTTP) :: map_to_list (∅ : LogContext).
Proof.
  split; [|split].
  - apply (proj1 (trace_fields_follow_context
                    (Some {| span := Some {| TraceID := 255; SpanID := 1 |} |})
                    TypeNormal ∅)
             {| span := Some {| TraceID := 255; SpanID := 1 |} |}
             {| TraceID := 255; SpanID := 1 |}); reflexivity.
  - apply (proj2 (trace_fields_follow_context None TypeNormal (<["k" := VInt 1]> ∅))).
    by left.
  - apply (proj2 (trace_fields_follow_context (Some context_Background) TypeHTTP ∅)).
    right. exists context_Background. split; reflexivity.
Defined.

(** ** The entry points *)

Section EntryPoints.

Lemma zap_log_ok lvl l message fields w lg z :
  loggers w !! l = Some lg -> zap lg = Some z ->
  zap_log lvl l message fields w =
  Ok tt (set_emitted
           (emitted w ++ [mkRecord lvl message (with_fields z ++ fields)]) w).
Proof. intros Hl Hz. unfold zap_log. by rewrite Hl, Hz. Qed.

(** Handing a record to zap never touches the maps. *)
Lemma zap_log_maps lvl l message fields w :
  maps (world_of (zap_log lvl l message fields w)) = maps w.
Proof.
  unfold zap_log. destruct (loggers w !! l) as [lg|]; [|done].
  by destruct (zap lg).
Qed.

Lemma deref_insert r (m : LogContext) ms w :
  deref (set_maps (<[r := m]> ms) w) (Some r) = m.
Proof. unfold deref. cbn. by rewrite lookup_insert_eq. Qed.

Lemma deref_lookup r (m : LogContext) w :
  maps w !! r = Some m -> deref w (Some r) = m.
Proof. unfold deref. by intros ->. Qed.

(** The three statements of the substitution in [Error], run on the map
    at [r]. *)
Lemma error_substitution_run r (m : LogContext) err w :
  maps w !! r = Some m ->
  (_ ← map_assign (Some r) "error_message" (VString err);
   _ ← map_assign (Some r) "error_type" (VString "error");
   map_delete (Some r) "error") w =
  Ok tt (set_maps
           (<[r := delete "error"
                     (<["error_type" := VString "error"]>
                        (<["error_message" := VString err]> m))]> (maps w)) w).
Proof.
  intros Hr. unfold mbind, M_bind, map_assign, map_delete.
  rewrite (deref_lookup r m w Hr). rewrite !deref_insert. cbn.
  by rewrite !insert_insert_eq.
Qed.

End EntryPoints.

Section ErrorEntryPoint.

Lemma Error_unfold l ctx message context w :
  Error l ctx message context w =
  match
    (match deref w context !! "error" ≫= as_error with
     | Some err =>
         _ ← map_assign context "error_message" (VString err);
         _ ← map_assign context "error_type" (VString "error");
         map_delete context "error"
     | None => mret tt
     end) w
  with
  | Ok _ w' =>
      zap_log ErrorLevel l message (buildFields ctx TypeError (deref w' context)) w'
  | Panic v w' => Panic v w'
  end.
Proof. reflexivity. Qed.

(** [Error] on a map without an error object under ["error"]: nothing is
    rewritten, the map goes to the record as it is. *)
Lemma Error_plain l ctx message context w lg z :
  loggers w !! l = Some lg -> zap lg = Some z ->
  deref w context !! "error" ≫= as_error = None ->
  Error l ctx message context w =
  Ok tt (set_emitted
           (emitted w ++
            [mkRecord ErrorLevel message
               (with_fields z ++ buildFields ctx TypeError (deref w context))]) w).
Proof.
  intros Hl Hz Hnone. rewrite Error_unfold, Hnone. cbn.
  by apply (zap_log_ok _ _ _ _ _ lg z).
Qed.

(** [Error] on a map with an error object under ["error"]. *)
Lemma Error_object l ctx message r (m : LogContext) err w lg z :
  loggers w !! l = Some lg -> zap lg = Some z ->
  maps w !! r = Some m -> m !! "error" = Some (VError err) ->
  let m' := delete "error"
              (<["error_type" := VString "error"]>
                 (<["error_message" := VString err]> m)) in
  Error l ctx message (Some r) w =
  Ok tt (set_emitted
           (emitted w ++
            [mkRecord ErrorLevel message
               (with_fields z ++ buildFields ctx TypeError m')])
           (set_maps (<[r := m']> (maps w)) w)).
Proof.
  intros Hl Hz Hr Herr m'. rewrite Error_unfold.
  rewrite (deref_lookup r m w Hr), Herr. cbn [mbind option_bind as_error].
  rewrite (error_substitution_run r m err w Hr). fold m'.
  rewrite deref_insert.
  by rewrite (zap_log_ok _ _ _ _ _ lg z).
Qed.

Lemma not_elem_of_fields_app k v (fs gs : list Field) :
  k ∉ fs.*1 -> (forall v', (k, v') ∉ gs) -> (k, v) ∉ fs ++ gs.
Proof.
  intros Hfs Hgs [Hin|Hin]%elem_of_app.
  - apply Hfs. apply list_elem_of_fmap. by exists (k, v).
  - by apply (Hgs v).
Qed.

End ErrorEntryPoint.

(** C9.  [Info], [Warn], [Debug], [HTTP], [Security] and [Audit] leave
    every map of the store as it was, the caller's included, whether they
    return or panic; [Error] does not: there is a call of [Error] after
    which the caller's map has changed. *)
Theorem only_Error_mutates_the_field_map :
  (forall l ctx message context w,
     maps (world_of (Info l ctx message context w)) = maps w /\
     maps (world_of (Warn l ctx message context w)) = maps w /\
     maps (world_of (Debug l ctx message context w)) = maps w /\
     maps (world_of (HTTP l ctx message context w)) = maps w /\
     maps (world_of (Security l ctx message context w)) = maps w /\
     maps (world_of (Audit l ctx message context w)) = maps w) /\
  (exists l ctx message r m w,
     maps w !! r = Some m /\
     maps (world_of (Error l ctx message (Some r) w)) !! r <> Some m).
Proof.
  split.
  - intros l ctx message context w.
    unfold Info, Warn, Debug, HTTP, Security, Audit, mbind, M_bind, get.
    repeat split; apply zap_log_maps.
  - exists 1%positive, None, "failed", 1%positive,
      error_object_map, (world_with_map error_object_map).
    split; [apply lookup_insert_eq|].
    rewrite (Error_object 1%positive None "failed" 1%positive error_object_map
               "test error" (world_with_map error_object_map)
               {| zap := Some sample_zap; config := sample_config |} sample_zap);
      try reflexivity.
    cbn [world_of maps set_emitted set_maps]. rewrite lookup_insert_eq.
    intros Heq.
    apply (f_equal (fun o : option LogContext => o ≫= (fun m => m !! "error")))
      in Heq.
    cbn [mbind option_bind] in Heq. rewrite lookup_delete_eq in Heq.
    unfold error_object_map in Heq.
    rewrite lookup_insert_ne, lookup_insert_eq in Heq by done.
    discriminate Heq.
Qed.

(** C3.  Let the logger's constant fields have no ["error"] key and let
    the caller pass the map at address [r].  If the map binds ["error"] to
    an error object, [Error] hands zap one Error-level record that has
    [error_message] = the object's message and [error_type] = ["error"]
    and no field named ["error"], and the caller's map itself, at the same
    address, has lost ["error"] and gained the two keys.  If ["error"] is
    bound to a value that is no error object, the map stays as it was and
    the value is a field of the record under ["error"]. *)
Theorem Error_substitutes_error_object l ctx message r (m : LogContext) w lg z :
  loggers w !! l = Some lg -> zap lg = Some z ->
  "error" ∉ (with_fields z).*1 ->
  maps w !! r = Some m ->
  (forall err,
     m !! "error" = Some (VError err) ->
     exists w' rec,
       Error l ctx message (Some r) w = Ok tt w' /\
       maps w' = <[r := delete "error"
                           (<["error_type" := VString "error"]>
                              (<["error_message" := VString err]> m))]> (maps w) /\
       emitted w' = emitted w ++ [rec] /\
       rlevel rec = ErrorLevel /\
       ("error_message", VString err) ∈ rfields rec /\
       ("error_type", VString "error") ∈ rfields rec /\
       (forall v, ("error", v) ∉ rfields rec)) /\
  (forall v,
     m !! "error" = Some v -> as_error v = None ->
     exists w' rec,
       Error l ctx message (Some r) w = Ok tt w' /\
       maps w' = maps w /\
       emitted w' = emitted w ++ [rec] /\
       rlevel rec = ErrorLevel /\
       ("error", v) ∈ rfields rec).
Proof.
  intros Hl Hz Hconst Hr. split.
  - intros err Herr.
    pose proof (Error_object l ctx message r m err w lg z Hl Hz Hr Herr) as Hrun.
    cbn zeta in Hrun. eexists _, _. split; [exact Hrun|].
    cbn [maps emitted set_emitted set_maps rlevel rfields].
    repeat split.
    + apply elem_of_app; right. apply caller_field_in_buildFields.
      rewrite lookup_delete_ne, lookup_insert_ne, lookup_insert_eq; done.
    + apply elem_of_app; right. apply caller_field_in_buildFields.
      rewrite lookup_delete_ne, lookup_insert_eq; done.
    + intros v. apply not_elem_of_fields_app; [done|].
      intros v' [[=] | [Htrace | Hmap]]%elem_of_buildFields.
      * destruct ctx as [c|]; cbn in Htrace; [|by apply elem_of_nil in Htrace].
        destruct (negb _); [by apply elem_of_nil in Htrace|].
        apply elem_of_cons in Htrace as [[=]|Htrace].
        by apply list_elem_of_singleton in Htrace.
      * by rewrite lookup_delete_eq in Hmap.
  - intros v Hv Hplain.
    assert (deref w (Some r) !! "error" ≫= as_error = None) as Hnone
      by (rewrite (deref_lookup r m w Hr), Hv; exact Hplain).
    eexists _, _. split; [by apply (Error_plain _ _ _ _ _ lg z)|].
    cbn [maps emitted set_emitted rlevel rfields].
    repeat split.
    apply elem_of_app; right. apply caller_field_in_buildFields.
    by rewrite (deref_lookup r m w Hr).
Qed.

(** C3 on the two calls of the package's documentation: an error object
    under ["error"], and an error message passed as a string. *)
Lemma Error_substitutes_error_object_witness :
  (exists w' rec,
     Error 1%positive None "An error occurred" (Some 1%positive)
           (world_with_map error_object_map) = Ok tt w' /\
     maps w' !! 1%positive =
       Some (delete "error"
               (<["error_type" := VString "error"]>
                  (<["error_message" := VString "test error"]> error_object_map))) /\
     emitted w' = [rec] /\
     ("error_message", VString "test error") ∈ rfields rec /\
     (forall v, ("error", v) ∉ rfields rec)) /\
  (exists w' rec,
     Error 1%positive None "Payment processing failed" (Some 1%positive)
           (world_with_map error_string_map) = Ok tt w' /\
     maps w' = maps (world_with_map error_string_map) /\
     emitted w' = [rec] /\
     ("error", VString "insufficient funds") ∈ rfields rec).
Proof.
  split.
  - destruct (proj1 (Error_substitutes_error_object
                       1%positive None "An error occurred" 1%positive
                       error_object_map (world_with_map error_object_map)
                       {| zap := Some sample_zap; config := sample_config |}
                       sample_zap eq_refl eq_refl ltac:(compute_done) eq_refl)
                "test error" eq_refl)
      as (w' & rec & Hrun & Hmaps & Hemitted & _ & Hmsg & _ & Hnone).
    exists w', rec. split; [exact Hrun|]. split; [|by repeat split].
    rewrite Hmaps. apply lookup_insert_eq.
  - destruct (proj2 (Error_substitutes_error_object
                       1%positive None "Payment processing failed" 1%positive
                       error_string_map (world_with_map error_string_map)
                       {| zap := Some sample_zap; config := sample_config |}
                       sample_zap eq_refl eq_refl ltac:(compute_done) eq_refl)
                (VString "insufficient funds") eq_refl eq_refl)
      as (w' & rec & Hrun & Hmaps & Hemitted & _ & Hfield).
    exists w', rec. by repeat split.
Defined.

(** ** The singleton *)

Section Singleton.

(** The constant fields given by [buildZapLogger] never include a field
    named ["error"]. *)
Lemma buildZapLogger_no_error_key cfg w :
  exists z, buildZapLogger cfg w = Ok z w /\ "error" ∉ (with_fields z).*1.
Proof.
  eexists. split; [reflexivity|]. cbn.
  intros Hin. repeat (apply elem_of_cons in Hin as [[=]|Hin]).
  by apply elem_of_nil in Hin.
Qed.

(** The first call: a new [Logger] is made, stored and returned. *)
Lemma Initialize_first cfg w :
  once w = false ->
  exists h w' z,
    Initialize cfg w = Ok (Some h) w' /\
    (h ∉ dom (loggers w)) /\
    once w' = true /\
    instance w' = Some h /\
    loggers w' !! h = Some {| zap := Some z; config := cfg |} /\
    buildZapLogger cfg w = Ok z w /\
    maps w' = maps w /\ emitted w' = emitted w.
Proof.
  intros Honce.
  exists (fresh (dom (loggers w))). eexists. eexists.
  split.
  - unfold Initialize, once_Do, mbind, M_bind, new_logger, modify, get, mret, M_ret.
    rewrite Honce. cbn. reflexivity.
  - cbn. split; [apply is_fresh|].
    repeat split. by rewrite lookup_insert_eq.
Qed.

(** Any later call: the guard is set, nothing runs, the stored handle is
    returned and the world is as before. *)
Lemma Initialize_again cfg w :
  once w = true -> Initialize cfg w = Ok (instance w) w.
Proof.
  intros Honce.
  unfold Initialize, once_Do, mbind, M_bind, get, mret, M_ret.
  by rewrite Honce.
Qed.

Lemma Initialize_all_again cfgs w :
  once w = true ->
  Initialize_all cfgs w = Ok (replicate (length cfgs) (instance w)) w.
Proof.
  intros Honce. induction cfgs as [|cfg cfgs IH]; [done|].
  cbn [Initialize_all length replicate]. unfold mbind, M_bind in *.
  by rewrite Initialize_again, IH.
Qed.

End Singleton.

(** C6.  In a process where [Initialize] has not run yet, any sequence of
    calls of [Initialize] returns the same handle at every call: the
    [Logger] made by the first call, which is new and still holds the
    configuration of the first call after the last one. *)
Theorem Initialize_once (cfg : Config) (cfgs : list Config) (w : World) :
  once w = false ->
  exists h w',
    Initialize_all (cfg :: cfgs) w = Ok (replicate (S (length cfgs)) (Some h)) w' /\
    (h ∉ dom (loggers w)) /\
    instance w' = Some h /\
    (config <$> loggers w' !! h) = Some cfg.
Proof.
  intros Honce.
  destruct (Initialize_first cfg w Honce)
    as (h & w1 & z & Hrun & Hnew & Honce1 & Hinst & Hlogger & _).
  exists h, w1. split; [|split; [done|split; [done|]]].
  - cbn [Initialize_all]. unfold mbind, M_bind.
    rewrite Hrun, (Initialize_all_again cfgs w1 Honce1), Hinst. done.
  - by rewrite Hlogger.
Qed.

Lemma Initialize_once_witness :
  exists h w',
    Initialize_all
      [ sample_config;
        {| ServiceName := "other"; ServiceVersion := "2.0.0"; Env := "prod";
           Level := LevelDEBUG |};
        sample_config ]
      (initial_world "host" sample_request)
    = Ok [Some h; Some h; Some h] w' /\
    (config <$> loggers w' !! h) = Some sample_config.
Proof.
  destruct (Initialize_once sample_config
              [ {| ServiceName := "other"; ServiceVersion := "2.0.0"; Env := "prod";
                   Level := LevelDEBUG |};
                sample_config ]
              (initial_world "host" sample_request) eq_refl)
    as (h & w' & Hrun & _ & _ & Hcfg).
  exists h, w'. split; [exact Hrun | exact Hcfg].
Defined.

(** ** The access log *)

Section AccessLog.

Lemma bind_Ok {A B} (m : M A) (f : A -> M B) w a w' :
  m w = Ok a w' -> (m ≫= f) w = f a w'.
Proof. unfold mbind, M_bind. by intros ->. Qed.

Lemma bind_Panic {A B} (m : M A) (f : A -> M B) w v w' :
  m w = Panic v w' -> (m ≫= f) w = Panic v w'.
Proof. unfold mbind, M_bind. by intros ->. Qed.

Lemma is_excluded_true path excludePaths :
  is_excluded path excludePaths = true <-> path ∈ excludePaths.
Proof.
  induction excludePaths as [|p ps IH]; cbn.
  - split; [done | by intros ?%elem_of_nil].
  - rewrite elem_of_cons. destruct (String.eqb_spec path p) as [->|Hne].
    + split; auto.
    + rewrite IH. split; [auto | by intros [?|?]].
Qed.

Lemma when_assign (b : bool) r k v (m : LogContext) ms w :
  when b (map_assign (Some r) k v) (set_maps (<[r := m]> ms) w) =
  Ok tt (set_maps (<[r := if b then <[k := v]> m else m]> ms) w).
Proof.
  destruct b; [|done].
  unfold when, map_assign. rewrite deref_insert. cbn.
  by rewrite insert_insert_eq.
Qed.

Lemma access_context_no_error opts path duration c :
  access_context opts path duration c !! "error" = None.
Proof.
  unfold access_context.
  repeat case_match; by rewrite ?lookup_insert_ne by done.
Qed.

Lemma Warn_ok l ctx message context w lg z :
  loggers w !! l = Some lg -> zap lg = Some z ->
  Warn l ctx message context w =
  Ok tt (set_emitted
           (emitted w ++
            [mkRecord WarnLevel message
               (with_fields z ++ buildFields ctx TypeNormal (deref w context))]) w).
Proof. intros. unfold Warn. rewrite (bind_Ok get _ w w w eq_refl). by apply (zap_log_ok _ _ _ _ _ lg z). Qed.

Lemma HTTP_ok l ctx message context w lg z :
  loggers w !! l = Some lg -> zap lg = Some z ->
  HTTP l ctx message context w =
  Ok tt (set_emitted
           (emitted w ++
            [mkRecord InfoLevel message
               (with_fields z ++ buildFields ctx TypeHTTP (deref w context))]) w).
Proof. intros. unfold HTTP. rewrite (bind_Ok get _ w w w eq_refl). by apply (zap_log_ok _ _ _ _ _ lg z). Qed.

(** A panic of the downstream handler goes through the access log as it
    is: the closure has no [recover], and logs nothing. *)
Lemma handler_panic_propagates opts l next w r w1 :
  next w = Panic r w1 ->
  FiberMiddleware_handler opts l next w = Panic r w1.
Proof.
  intros Hnext. unfold FiberMiddleware_handler.
  rewrite (bind_Ok get _ w w w eq_refl). cbn beta zeta.
  destruct (is_excluded _ _); [done|].
  rewrite (bind_Ok time_Now _ w (clock w) w eq_refl).
  by rewrite (bind_Panic next _ w r w1 Hnext).
Qed.

(** The access log of a request that is not excluded, in closed form. *)
Lemma handler_logged opts l next w err w1 lg z :
  is_excluded (c_path (fiber w)) (ExcludePaths opts) = false ->
  next w = Ok err w1 ->
  loggers w1 !! l = Some lg -> zap lg = Some z ->
  let c := fiber w1 in
  let path := c_path (fiber w) in
  let m := access_context opts path (time_Sub (clock w1) (clock w)) c in
  let message := Sprintf_s_s_d (c_method c) path (c_status c) in
  FiberMiddleware_handler opts l next w =
  Ok err (set_emitted
            (emitted w1 ++
             [mkRecord (access_dispatch (c_status c)).1 message
                (with_fields z ++
                 buildFields (Some (c_userContext c))
                             (access_dispatch (c_status c)).2 m)])
            (set_maps (<[fresh (dom (maps w1)) := m]> (maps w1)) w1)).
Proof.
  intros Hexcl Hnext Hl Hz c path m message.
  unfold FiberMiddleware_handler.
  rewrite (bind_Ok get _ w w w eq_refl). cbn beta zeta. rewrite Hexcl.
  rewrite (bind_Ok time_Now _ w (clock w) w eq_refl).
  rewrite (bind_Ok next _ w err w1 Hnext).
  rewrite (bind_Ok (time_Since (clock w)) _ w1 (time_Sub (clock w1) (clock w)) w1 eq_refl).
  rewrite (bind_Ok get _ w1 w1 w1 eq_refl). cbn beta zeta.
  erewrite (bind_Ok (new_map _)); [|reflexivity].
  erewrite (bind_Ok (when _ _)); [|apply when_assign].
  erewrite (bind_Ok (when _ _)); [|apply when_assign].
  erewrite (bind_Ok (when _ _)); [|apply when_assign].
  fold c path.
  change (set_maps _ w1)
    with (set_maps (<[fresh (dom (maps w1)) := m]> (maps w1)) w1).
  unfold access_dispatch.
  destruct (500 <=? c_status c); [|destruct (400 <=? c_status c)].
  - erewrite bind_Ok; [reflexivity|].
    rewrite (Error_plain _ _ _ _ _ lg z); [by rewrite deref_insert|done|done|].
    rewrite deref_insert. unfold m. by rewrite access_context_no_error.
  - erewrite bind_Ok; [reflexivity|].
    rewrite (Warn_ok _ _ _ _ _ lg z); [by rewrite deref_insert|done|done].
  - erewrite bind_Ok; [reflexivity|].
    rewrite (HTTP_ok _ _ _ _ _ lg z); [by rewrite deref_insert|done|done].
Qed.
End AccessLog.

Section LevelGate.

Lemma written_snoc z rs rec :
  written z (rs ++ [rec]) =
  written z rs ++ (if Enabled (core_level z) (rlevel rec) then [rec] else []).
Proof.
  unfold written. rewrite List.filter_app. cbn [List.filter].
  by destruct (Enabled _ _).
Qed.

(** A core of level Debug or Info enables every level but Debug. *)
Lemma Enabled_from_Info enab lvl :
  level_rank enab <= 0 -> lvl <> DebugLevel -> Enabled enab lvl = true.
Proof.
  intros Henab Hlvl. unfold Enabled. apply Z.leb_le.
  destruct lvl; cbn; try done; lia.
Qed.

Lemma access_dispatch_level statusCode :
  (access_dispatch statusCode).1 <> DebugLevel.
Proof. unfold access_dispatch. by repeat case_match. Qed.

End LevelGate.

(** C1 (as amended).  When the path of the request is not excluded and
    the downstream handler returns, the access log hands the logger
    exactly one record more than the downstream did, through the entry
    point chosen by the status code the response has at that moment:
    [Error] (Error level, [log_type] error) from 500 up, [Warn] (Warn
    level, [log_type] normal) from 400 to 499, [HTTP] (Info level,
    [log_type] http) for every other status.  The record carries that
    status code, and the wrapper returns what the downstream returned.
    The logger writes the record exactly when its level is not below the
    minimum level of its core: always when that minimum is Debug or Info,
    not for a status below 400 when it is Warn, not for a status below 500
    when it is Error. *)
Theorem access_log_dispatch opts l next w err w1 lg z :
  c_path (fiber w) ∉ ExcludePaths opts ->
  next w = Ok err w1 ->
  loggers w1 !! l = Some lg -> zap lg = Some z ->
  let statusCode := c_status (fiber w1) in
  let ctx := Some (c_userContext (fiber w1)) in
  exists w2 rec w' context,
    FiberMiddleware_handler opts l next w = Ok err w2 /\
    emitted w2 = emitted w1 ++ [rec] /\
    emitted w' = emitted w1 /\
    rmessage rec =
      Sprintf_s_s_d (c_method (fiber w1)) (c_path (fiber w)) statusCode /\
    ("status_code", VInt statusCode) ∈ rfields rec /\
    (500 <= statusCode ->
     Error l ctx (rmessage rec) context w' = Ok tt w2 /\
     rlevel rec = ErrorLevel /\ ("log_type", VString TypeError) ∈ rfields rec) /\
    (400 <= statusCode < 500 ->
     Warn l ctx (rmessage rec) context w' = Ok tt w2 /\
     rlevel rec = WarnLevel /\ ("log_type", VString TypeNormal) ∈ rfields rec) /\
    (statusCode < 400 ->
     HTTP l ctx (rmessage rec) context w' = Ok tt w2 /\
     rlevel rec = InfoLevel /\ ("log_type", VString TypeHTTP) ∈ rfields rec) /\
    written z (emitted w2) =
      written z (emitted w1) ++
      (if Enabled (core_level z) (rlevel rec) then [rec] else []) /\
    (level_rank (core_level z) <= 0 ->
     written z (emitted w2) = written z (emitted w1) ++ [rec]) /\
    (core_level z = WarnLevel -> statusCode < 400 ->
     written z (emitted w2) = written z (emitted w1)) /\
    (core_level z = ErrorLevel -> statusCode < 500 ->
     written z (emitted w2) = written z (emitted w1)).
Proof.
  intros Hpath Hnext Hl Hz statusCode ctx.
  assert (is_excluded (c_path (fiber w)) (ExcludePaths opts) = false) as Hexcl.
  { apply not_true_is_false. by rewrite is_excluded_true. }
  pose proof (handler_logged opts l next w err w1 lg z Hexcl Hnext Hl Hz) as Hrun.
  cbn zeta in Hrun.
  set (m := access_context opts (c_path (fiber w))
              (time_Sub (clock w1) (clock w)) (fiber w1)) in *.
  set (r := fresh (dom (maps w1))) in *.
  eexists _, _, (set_maps (<[r := m]> (maps w1)) w1), (Some r).
  split; [exact Hrun|].
  cbn [emitted set_emitted set_maps rmessage rfields rlevel].
  split; [done|]. split; [done|]. split; [done|].
  assert (forall ty, ("log_type", VString ty) ∈
            with_fields z ++ buildFields ctx ty m) as Htype.
  { intros ty. apply elem_of_app; right.
    apply elem_of_buildFields. by left. }
  split; [|split; [|split; [|split]]].
  - apply elem_of_app; right. apply caller_field_in_buildFields.
    unfold m, access_context.
    repeat case_match; by rewrite ?lookup_insert_ne, ?lookup_insert_eq by done.
  - intros Hs. unfold access_dispatch.
    replace (500 <=? c_status (fiber w1)) with true by (symmetry; apply Z.leb_le; exact Hs).
    cbn [fst snd]. split; [|by split].
    rewrite (Error_plain _ _ _ _ _ lg z); [by rewrite deref_insert|done|done|].
    rewrite deref_insert. unfold m. by rewrite access_context_no_error.
  - intros [Hlo Hhi]. unfold access_dispatch.
    replace (500 <=? c_status (fiber w1)) with false
      by (symmetry; apply Z.leb_gt; exact Hhi).
    replace (400 <=? c_status (fiber w1)) with true
      by (symmetry; apply Z.leb_le; exact Hlo).
    cbn [fst snd]. split; [|by split].
    rewrite (Warn_ok _ _ _ _ _ lg z); [by rewrite deref_insert|done|done].
  - intros Hs. unfold access_dispatch.
    replace (500 <=? c_status (fiber w1)) with false
      by (symmetry; apply Z.leb_gt; fold statusCode; lia).
    replace (400 <=? c_status (fiber w1)) with false
      by (symmetry; apply Z.leb_gt; exact Hs).
    cbn [fst snd]. split; [|by split].
    rewrite (HTTP_ok _ _ _ _ _ lg z); [by rewrite deref_insert|done|done].
  - rewrite written_snoc. cbn [rlevel].
    split; [done|]. split; [|split].
    + intros Hcore.
      by rewrite (Enabled_from_Info _ _ Hcore (access_dispatch_level _)).
    + intros Hcore Hs. rewrite Hcore. unfold access_dispatch.
      replace (500 <=? c_status (fiber w1)) with false
        by (symmetry; apply Z.leb_gt; fold statusCode; lia).
      replace (400 <=? c_status (fiber w1)) with false
        by (symmetry; apply Z.leb_gt; exact Hs).
      cbn. by rewrite app_nil_r.
    + intros Hcore Hs. rewrite Hcore. unfold access_dispatch.
      replace (500 <=? c_status (fiber w1)) with false
        by (symmetry; apply Z.leb_gt; exact Hs).
      destruct (400 <=? c_status (fiber w1)); cbn; by rewrite app_nil_r.
Qed.

(** C1, as first stated, fails: a logger initialised with the level
    ERROR is handed the Info record of a 200 answer on a path that is not
    excluded, and writes nothing. *)
Lemma access_log_silent_below_minimum_level :
  Initialize quiet_config (initial_world "host" sample_request)
    = Ok (Some 1%positive) quiet_world /\
  exists w2 rec,
    FiberMiddleware_handler sample_options 1%positive (respond 1000 200)
      quiet_world = Ok None w2 /\
    c_status (fiber w2) = 200 /\
    emitted w2 = [rec] /\ rlevel rec = InfoLevel /\
    written quiet_zap (emitted w2) = [].
Proof.
  split; [by vm_compute|].
  eexists _, _. split; [vm_compute; reflexivity|]. by repeat split.
Qed.

(** C1 on the statuses 503, 404, 301 and 100, for the request
    [GET /healthz] when only [/health] is excluded and the minimum level
    is Info. *)
Lemma access_log_dispatch_witness :
  (exists w2 rec,
     FiberMiddleware_handler sample_options 1%positive (respond 1000 503) sample_world
       = Ok None w2 /\
     emitted w2 = [rec] /\ rlevel rec = ErrorLevel /\
     ("status_code", VInt 503) ∈ rfields rec /\
     written sample_zap (emitted w2) = [rec]) /\
  (exists w2 rec,
     FiberMiddleware_handler sample_options 1%positive (respond 1000 404) sample_world
       = Ok None w2 /\
     emitted w2 = [rec] /\ rlevel rec = WarnLevel /\
     ("status_code", VInt 404) ∈ rfields rec /\
     written sample_zap (emitted w2) = [rec]) /\
  (exists w2 rec,
     FiberMiddleware_handler sample_options 1%positive (respond 1000 301) sample_world
       = Ok None w2 /\
     emitted w2 = [rec] /\ rlevel rec = InfoLevel /\
     ("log_type", VString TypeHTTP) ∈ rfields rec /\
     written sample_zap (emitted w2) = [rec]) /\
  (exists w2 rec,
     FiberMiddleware_handler sample_options 1%positive (respond 1000 100) sample_world
       = Ok None w2 /\
     emitted w2 = [rec] /\ rlevel rec = InfoLevel /\
     ("log_type", VString TypeHTTP) ∈ rfields rec /\
     written sample_zap (emitted w2) = [rec]) /\
  (exists w2,
     FiberMiddleware_handler sample_options 1%positive (respond 1000 200) quiet_world
       = Ok None w2 /\
     written quiet_zap (emitted w2) = []).
Proof.
  assert ("/healthz" ∉ ["/health"]) as Hpath.
  { intros [Heq|Hin]%elem_of_cons; [discriminate Heq | by apply elem_of_nil in Hin]. }
  split; [|split; [|split; [|split]]].
  - destruct (access_log_dispatch sample_options 1%positive (respond 1000 503)
                sample_world None (world_of (respond 1000 503 sample_world))
                {| zap := Some sample_zap; config := sample_config |} sample_zap
                Hpath eq_refl eq_refl eq_refl)
      as (w2 & rec & w' & context & Hrun & Hem & _ & _ & Hstatus & Hhigh & _ & _
          & _ & Hwritten & _).
    exists w2, rec. split; [exact Hrun|]. split; [exact Hem|].
    split; [apply Hhigh; discriminate|]. split; [exact Hstatus|].
    apply Hwritten. discriminate.
  - destruct (access_log_dispatch sample_options 1%positive (respond 1000 404)
                sample_world None (world_of (respond 1000 404 sample_world))
                {| zap := Some sample_zap; config := sample_config |} sample_zap
                Hpath eq_refl eq_refl eq_refl)
      as (w2 & rec & w' & context & Hrun & Hem & _ & _ & Hstatus & _ & Hmid & _
          & _ & Hwritten & _).
    exists w2, rec. split; [exact Hrun|]. split; [exact Hem|].
    split; [apply Hmid; split; [discriminate | reflexivity]|].
    split; [exact Hstatus|]. apply Hwritten. discriminate.
  - destruct (access_log_dispatch sample_options 1%positive (respond 1000 301)
                sample_world None (world_of (respond 1000 301 sample_world))
                {| zap := Some sample_zap; config := sample_config |} sample_zap
                Hpath eq_refl eq_refl eq_refl)
      as (w2 & rec & w' & context & Hrun & Hem & _ & _ & _ & _ & _ & Hlow
          & _ & Hwritten & _).
    exists w2, rec. split; [exact Hrun|]. split; [exact Hem|].
    split; [apply Hlow; reflexivity|]. split; [apply Hlow; reflexivity|].
    apply Hwritten. discriminate.
  - destruct (access_log_dispatch sample_options 1%positive (respond 1000 100)
                sample_world None (world_of (respond 1000 100 sample_world))
                {| zap := Some sample_zap; config := sample_config |} sample_zap
                Hpath eq_refl eq_refl eq_refl)
      as (w2 & rec & w' & context & Hrun & Hem & _ & _ & _ & _ & _ & Hlow
          & _ & Hwritten & _).
    exists w2, rec. split; [exact Hrun|]. split; [exact Hem|].
    split; [apply Hlow; reflexivity|]. split; [apply Hlow; reflexivity|].
    apply Hwritten. discriminate.
  - destruct (access_log_dispatch sample_options 1%positive (respond 1000 200)
                quiet_world None (world_of (respond 1000 200 quiet_world))
                {| zap := Some quiet_zap; config := quiet_config |} quiet_zap
                Hpath eq_refl eq_refl eq_refl)
      as (w2 & rec & w' & context & Hrun & _ & _ & _ & _ & _ & _ & _
          & _ & _ & _ & Hquiet).
    exists w2. split; [exact Hrun|].
    apply (Hquiet eq_refl). reflexivity.
Defined.

(** C7 (as amended).  If the path of the request is equal to an entry of
    [ExcludePaths], the wrapper is the downstream handler and nothing
    else: same result, same world, no record of its own.  If the path is
    equal to no entry, also when an entry is a proper prefix of it, and
    the downstream handler returns, the wrapper hands the logger one
    record, for that path; the logger writes it exactly when its level is
    not below the minimum level of its core, which is always so when that
    minimum is Debug or Info. *)
Theorem exclusion_is_exact_match opts l next w :
  (c_path (fiber w) ∈ ExcludePaths opts ->
   FiberMiddleware_handler opts l next w = next w) /\
  (forall err w1 lg z,
     c_path (fiber w) ∉ ExcludePaths opts ->
     next w = Ok err w1 ->
     loggers w1 !! l = Some lg -> zap lg = Some z ->
     exists w2 rec,
       FiberMiddleware_handler opts l next w = Ok err w2 /\
       emitted w2 = emitted w1 ++ [rec] /\
       ("path", VString (c_path (fiber w))) ∈ rfields rec /\
       written z (emitted w2) =
         written z (emitted w1) ++
         (if Enabled (core_level z) (rlevel rec) then [rec] else []) /\
       (level_rank (core_level z) <= 0 ->
        written z (emitted w2) = written z (emitted w1) ++ [rec])).
Proof.
  split.
  - intros Hin%is_excluded_true.
    unfold FiberMiddleware_handler.
    rewrite (bind_Ok get _ w w w eq_refl). cbn beta zeta. by rewrite Hin.
  - intros err w1 lg z Hpath Hnext Hl Hz.
    assert (is_excluded (c_path (fiber w)) (ExcludePaths opts) = false) as Hexcl.
    { apply not_true_is_false. by rewrite is_excluded_true. }
    pose proof (handler_logged opts l next w err w1 lg z Hexcl Hnext Hl Hz) as Hrun.
    cbn zeta in Hrun. eexists _, _. split; [exact Hrun|].
    cbn [emitted set_emitted set_maps rfields rlevel]. split; [done|].
    split.
    { apply elem_of_app; right. apply caller_field_in_buildFields.
      unfold access_context.
      repeat case_match; by rewrite ?lookup_insert_ne, ?lookup_insert_eq by done. }
    rewrite written_snoc. cbn [rlevel]. split; [done|].
    intros Hcore.
    by rewrite (Enabled_from_Info _ _ Hcore (access_dispatch_level _)).
Qed.

(** C7, as first stated, fails: [/healthz] is not excluded when
    [/health] is, yet a logger initialised with the level ERROR writes no
    record for a 200 answer on it. *)
Lemma prefix_path_silent_below_minimum_level :
  String.prefix "/health" "/healthz" = true /\
  ("/healthz" ∉ ExcludePaths sample_options) /\
  c_path (fiber quiet_world) = "/healthz" /\
  getZapLevel quiet_config = ErrorLevel /\
  exists w2,
    FiberMiddleware_handler sample_options 1%positive (respond 1000 200)
      quiet_world = Ok None w2 /\
    written quiet_zap (emitted w2) = [].
Proof.
  split; [done|]. split.
  { intros [Heq|Hin]%elem_of_cons; [discriminate Heq | by apply elem_of_nil in Hin]. }
  split; [done|]. split; [done|].
  eexists. split; [vm_compute; reflexivity|]. reflexivity.
Qed.

(** C7 with [/health] excluded and the minimum level Info: [GET /health]
    leaves no record, [GET /healthz], of which [/health] is a prefix,
    leaves one, which is written. *)
Lemma exclusion_is_exact_match_witness :
  (FiberMiddleware_handler sample_options 1%positive (respond 1000 200)
     (set_fiber health_request sample_world)
   = respond 1000 200 (set_fiber health_request sample_world) /\
   emitted (world_of (respond 1000 200 (set_fiber health_request sample_world))) = []) /\
  (String.prefix "/health" "/healthz" = true /\
   exists w2 rec,
     FiberMiddleware_handler sample_options 1%positive (respond 1000 200) sample_world
       = Ok None w2 /\
     emitted w2 = [rec] /\
     ("path", VString "/healthz") ∈ rfields rec /\
     written sample_zap (emitted w2) = [rec]).
Proof.
  split.
  - split; [|reflexivity].
    apply (proj1 (exclusion_is_exact_match sample_options 1%positive
                    (respond 1000 200) (set_fiber health_request sample_world))).
    by left.
  - split; [reflexivity|].
    destruct (proj2 (exclusion_is_exact_match sample_options 1%positive
                       (respond 1000 200) sample_world)
                None (world_of (respond 1000 200 sample_world))
                {| zap := Some sample_zap; config := sample_config |} sample_zap)
      as (w2 & rec & Hrun & Hem & Hfield & _ & Hwritten);
      try reflexivity.
    { intros [Heq|Hin]%elem_of_cons; [discriminate Heq | by apply elem_of_nil in Hin]. }
    exists w2, rec. split; [exact Hrun|]. split; [exact Hem|].
    split; [exact Hfield|]. apply Hwritten. discriminate.
Defined.

(** ** Durations *)

Section Durations.

(** The access log records the elapsed time as a whole number of
    milliseconds: the nanoseconds between the two clock readings, divided
    by a million and truncated. *)
Lemma duration_ms_field opts l next w err w1 lg z :
  c_path (fiber w) ∉ ExcludePaths opts ->
  next w = Ok err w1 ->
  loggers w1 !! l = Some lg -> zap lg = Some z ->
  exists w2 rec,
    FiberMiddleware_handler opts l next w = Ok err w2 /\
    emitted w2 = emitted w1 ++ [rec] /\
    ("duration_ms", VInt (Z.quot (time_Sub (clock w1) (clock w)) 1000000))
      ∈ rfields rec.
Proof.
  intros Hpath Hnext Hl Hz.
  assert (is_excluded (c_path (fiber w)) (ExcludePaths opts) = false) as Hexcl.
  { apply not_true_is_false. by rewrite is_excluded_true. }
  pose proof (handler_logged opts l next w err w1 lg z Hexcl Hnext Hl Hz) as Hrun.
  cbn zeta in Hrun. eexists _, _. split; [exact Hrun|].
  cbn [emitted set_emitted set_maps rfields]. split; [done|].
  apply elem_of_app; right. apply caller_field_in_buildFields.
  unfold access_context, Milliseconds.
  repeat case_match; by rewrite ?lookup_insert_ne, ?lookup_insert_eq by done.
Qed.

(** [MeasureDuration] returns a [float64] that is a whole number. *)
Lemma MeasureDuration_whole start w :
  MeasureDuration start w =
  Ok (inject_Z (Z.quot (time_Sub (clock w) start) 1000000)) w.
Proof. reflexivity. Qed.

(** The whole number of milliseconds of any [Duration] is far inside the
    range in which [float64] is exact. *)
Lemma Milliseconds_exact_in_float64 (t u : Time) :
  - 2 ^ 53 < Milliseconds (time_Sub t u) < 2 ^ 53.
Proof.
  unfold Milliseconds, time_Sub, minDuration, maxDuration.
  destruct (Z.ltb_spec (t - u) (- 2 ^ 63)) as [Hlow|Hlow];
    [by vm_compute|].
  destruct (Z.ltb_spec (2 ^ 63 - 1) (t - u)) as [Hhigh|Hhigh];
    [by vm_compute|].
  assert (- 2 ^ 63 <= t - u <= 2 ^ 63 - 1) as Hrange by lia.
  pose proof (Z.quot_rem' (t - u) 1000000) as Hqr.
  assert (Z.abs (Z.rem (t - u) 1000000) < Z.abs 1000000) as Hrem
    by (apply Z.rem_bound_abs; lia).
  lia.
Qed.

End Durations.

(** C8 (the code departs from it).  A downstream handler that takes
    1 500 000 ns, one millisecond and a half, is logged with
    [duration_ms] = 1: the field is a whole number of milliseconds, the
    half millisecond is dropped. *)
Theorem duration_ms_drops_the_fraction :
  exists w2 rec,
    FiberMiddleware_handler sample_options 1%positive (respond 1500000 200)
      sample_world = Ok None w2 /\
    emitted w2 = [rec] /\
    clock w2 - clock sample_world = 1500000 /\
    ("duration_ms", VInt 1) ∈ rfields rec /\
    forall v, ("duration_ms", v) ∈ rfields rec -> v = VInt 1.
Proof.
  eexists _, _. split; [vm_compute; reflexivity|].
  split; [reflexivity|]. split; [reflexivity|]. split.
  - cbn. repeat (first [by left | right]).
  - intros v Hv. cbn in Hv.
    repeat (apply elem_of_cons in Hv as [[=]|Hv]); try done.
    by apply elem_of_nil in Hv.
Qed.

(** ** The recovery wrapper *)

Section Recovery.

Lemma panic_context_no_error r c : panic_context r c !! "error" = None.
Proof. unfold panic_context. by rewrite !lookup_insert_ne by done. Qed.

(** The deferred function, run after a panic with value [r]. *)
Lemma recovered_run l r w lg z :
  loggers w !! l = Some lg -> zap lg = Some z ->
  let c := fiber w in
  let m := panic_context r c in
  recovered l r w =
  c_JSON (<["error" := VString "internal server error"]> ∅)
    (world_of (c_Status 500
       (set_emitted
          (emitted w ++
           [mkRecord ErrorLevel "Panic recovered"
              (with_fields z ++ buildFields (Some (c_userContext c)) TypeError m)])
          (set_maps (<[fresh (dom (maps w)) := m]> (maps w)) w)))).
Proof.
  intros Hl Hz c m. unfold recovered.
  rewrite (bind_Ok get _ w w w eq_refl). cbn beta zeta.
  erewrite (bind_Ok (new_map _)); [|reflexivity].
  erewrite (bind_Ok (Error _ _ _ _)); cycle 1.
  { rewrite (Error_plain _ _ _ _ _ lg z); [by rewrite deref_insert|done|done|].
    rewrite deref_insert.
    exact (f_equal (fun o : option value => o ≫= as_error)
             (panic_context_no_error r (fiber w))). }
  erewrite (bind_Ok (c_Status _)); [|reflexivity].
  reflexivity.
Qed.

End Recovery.

(** C2.  If the downstream handler panics with a value [r] (never nil
    for a panicking goroutine), the recovery wrapper returns normally, with
    a nil error: it hands zap exactly one record, of Error level, with the
    message "Panic recovered" and, besides [log_type] and the trace fields,
    exactly the fields [method], [path], [panic] = [r] and
    [status_code] = 500; the response has status 500 and the JSON body
    [{error: internal server error}].  If the downstream handler returns,
    the wrapper returns the same result in the same world: no record, no
    change to the response. *)
Theorem RecoveryMiddleware_recovers l next w :
  (forall r w1 lg z,
     next w = Panic r w1 -> r <> VNil ->
     loggers w1 !! l = Some lg -> zap lg = Some z ->
     exists w2 rec,
       RecoveryMiddleware_handler l next w = Ok None w2 /\
       emitted w2 = emitted w1 ++ [rec] /\
       rlevel rec = ErrorLevel /\
       rmessage rec = "Panic recovered" /\
       rfields rec =
         with_fields z ++
         buildFields (Some (c_userContext (fiber w1))) TypeError
           (<["status_code" := VInt 500]>
              (<["panic" := r]>
                 (<["path" := VString (c_path (fiber w1))]>
                    (<["method" := VString (c_method (fiber w1))]> ∅)))) /\
       ("method", VString (c_method (fiber w1))) ∈ rfields rec /\
       ("path", VString (c_path (fiber w1))) ∈ rfields rec /\
       ("panic", r) ∈ rfields rec /\
       ("status_code", VInt 500) ∈ rfields rec /\
       c_status (fiber w2) = 500 /\
       c_body (fiber w2) =
         BodyJSON (<["error" := VString "internal server error"]> ∅)) /\
  (forall err w1,
     next w = Ok err w1 ->
     RecoveryMiddleware_handler l next w = Ok err w1).
Proof.
  split.
  - intros r w1 lg z Hnext Hr Hl Hz.
    unfold RecoveryMiddleware_handler. rewrite Hnext.
    replace (is_nil r) with false by (by destruct r).
    rewrite (recovered_run l r w1 lg z Hl Hz). cbn zeta.
    eexists _, _. split; [reflexivity|].
    cbn [emitted fiber c_status c_body set_fiber set_emitted set_maps world_of
         c_Status modify rlevel rmessage rfields].
    split; [done|]. split; [done|]. split; [done|]. split; [done|].
    repeat split;
      apply elem_of_app; right; apply caller_field_in_buildFields;
      by rewrite ?lookup_insert_ne, ?lookup_insert_eq by done.
  - intros err w1 Hnext. unfold RecoveryMiddleware_handler. by rewrite Hnext.
Qed.

(** C2 on a handler that panics with a string, on one that panics with
    an error, and on one that answers 200. *)
Lemma RecoveryMiddleware_recovers_witness :
  (exists w2 rec,
     RecoveryMiddleware_handler 1%positive (panics_with (VString "test panic"))
       sample_world = Ok None w2 /\
     emitted w2 = [rec] /\ rlevel rec = ErrorLevel /\
     rmessage rec = "Panic recovered" /\
     ("panic", VString "test panic") ∈ rfields rec /\
     c_status (fiber w2) = 500) /\
  (exists w2 rec,
     RecoveryMiddleware_handler 1%positive (panics_with (VError "error panic"))
       sample_world = Ok None w2 /\
     emitted w2 = [rec] /\
     ("panic", VError "error panic") ∈ rfields rec) /\
  RecoveryMiddleware_handler 1%positive (respond 1000 200) sample_world
    = respond 1000 200 sample_world.
Proof.
  split; [|split].
  - destruct (proj1 (RecoveryMiddleware_recovers 1%positive
                       (panics_with (VString "test panic")) sample_world)
                (VString "test panic") sample_world
                {| zap := Some sample_zap; config := sample_config |} sample_zap
                eq_refl ltac:(discriminate) eq_refl eq_refl)
      as (w2 & rec & Hrun & Hem & Hlevel & Hmsg & _ & _ & _ & Hpanic & _ & Hstatus & _).
    exists w2, rec. by repeat split.
  - destruct (proj1 (RecoveryMiddleware_recovers 1%positive
                       (panics_with (VError "error panic")) sample_world)
                (VError "error panic") sample_world
                {| zap := Some sample_zap; config := sample_config |} sample_zap
                eq_refl ltac:(discriminate) eq_refl eq_refl)
      as (w2 & rec & Hrun & Hem & _ & _ & _ & _ & _ & Hpanic & _).
    exists w2, rec. by repeat split.
  - apply (proj2 (RecoveryMiddleware_recovers 1%positive (respond 1000 200)
                    sample_world)).
    reflexivity.
Defined.

(* ===================================================================== *)
(** * Further properties of the package                                    *)
(* ===================================================================== *)

(** ** The singleton, continued *)

(** X1.  [GetInstance] panics with its fixed message as long as no logger
    is stored.  After the first [Initialize] it returns the handle that
    [Initialize] returned, without changing anything, and so does every
    later [Initialize], whatever its configuration. *)
Theorem GetInstance_after_Initialize (w : World) :
  (instance w = None ->
   GetInstance w =
   Panic (VString "Logger not initialized. Call Initialize() first.") w) /\
  (forall cfg,
     once w = false ->
     exists h w',
       Initialize cfg w = Ok (Some h) w' /\
       GetInstance w' = Ok h w' /\
       forall cfg', Initialize cfg' w' = Ok (Some h) w').
Proof.
  split.
  - intros Hnone. unfold GetInstance. by rewrite Hnone.
  - intros cfg Honce.
    destruct (Initialize_first cfg w Honce)
      as (h & w' & z & Hrun & _ & Honce' & Hinst & _).
    exists h, w'. split; [done|]. split.
    + unfold GetInstance. by rewrite Hinst.
    + intros cfg'. by rewrite (Initialize_again cfg' w' Honce'), Hinst.
Qed.

Lemma GetInstance_after_Initialize_witness :
  GetInstance (initial_world "host" sample_request) =
    Panic (VString "Logger not initialized. Call Initialize() first.")
          (initial_world "host" sample_request) /\
  exists h w',
    Initialize sample_config (initial_world "host" sample_request) = Ok (Some h) w' /\
    GetInstance w' = Ok h w'.
Proof.
  split.
  - apply (proj1 (GetInstance_after_Initialize (initial_world "host" sample_request))).
    reflexivity.
  - destruct (proj2 (GetInstance_after_Initialize (initial_world "host" sample_request))
                sample_config eq_refl) as (h & w' & Hrun & Hget & _).
    exists h, w'. split; [exact Hrun | exact Hget].
Defined.

(** X2.  [getZapLevel] compares the configured level with the three
    constants exactly: it is Debug, Warn or Error only for the strings
    DEBUG, WARN and ERROR, and Info for every other string, lower-case
    spellings and the empty string included. *)
Theorem getZapLevel_exact_strings (cfg : Config) :
  (getZapLevel cfg = DebugLevel <-> Level cfg = "DEBUG") /\
  (getZapLevel cfg = WarnLevel <-> Level cfg = "WARN") /\
  (getZapLevel cfg = ErrorLevel <-> Level cfg = "ERROR") /\
  (getZapLevel cfg = InfoLevel <->
   Level cfg <> "DEBUG" /\ Level cfg <> "WARN" /\ Level cfg <> "ERROR").
Proof.
  unfold getZapLevel, LevelDEBUG, LevelWARN, LevelERROR.
  destruct (String.eqb_spec (Level cfg) "DEBUG") as [->|Hd].
  { repeat split; try done; by intros [? _]. }
  destruct (String.eqb_spec (Level cfg) "WARN") as [->|Hw].
  { repeat split; try done. by intros (_ & ? & _). }
  destruct (String.eqb_spec (Level cfg) "ERROR") as [->|He].
  { repeat split; try done. by intros (_ & _ & ?). }
  repeat split; done.
Qed.

Lemma getZapLevel_exact_strings_witness :
  getZapLevel {| ServiceName := "svc"; ServiceVersion := "1"; Env := "prod";
                 Level := "debug" |} = InfoLevel.
Proof.
  apply (proj2 (proj2 (proj2 (getZapLevel_exact_strings
           {| ServiceName := "svc"; ServiceVersion := "1"; Env := "prod";
              Level := "debug" |})))).
  repeat split; discriminate.
Defined.

(** X3.  The first [Initialize] stores one new [Logger]: its zap logger
    filters at [getZapLevel] of the configuration and carries the four
    constant fields [service.name], [service.version], [env] and
    [host.name], in that order, the last one being the host name of the
    machine.  The call emits no record and leaves the other loggers, the
    maps and the request alone; any further calls of [Initialize] return
    the same handle and change nothing at all. *)
Theorem Initialize_builds_logger (cfg : Config) (cfgs : list Config) (w : World) :
  once w = false ->
  exists h w',
    Initialize cfg w = Ok (Some h) w' /\
    (h ∉ dom (loggers w)) /\
    loggers w' !! h =
      Some {| zap := Some {| core_level := getZapLevel cfg;
                             with_fields :=
                               [ ("service.name", VString (ServiceName cfg));
                                 ("service.version", VString (ServiceVersion cfg));
                                 ("env", VString (Env cfg));
                                 ("host.name", VString (hostname w)) ] |};
              config := cfg |} /\
    (forall l, l <> h -> loggers w' !! l = loggers w !! l) /\
    maps w' = maps w /\ emitted w' = emitted w /\ fiber w' = fiber w /\
    Initialize_all cfgs w' = Ok (replicate (length cfgs) (Some h)) w'.
Proof.
  intros Honce.
  exists (fresh (dom (loggers w))). eexists. split.
  { unfold Initialize, once_Do, mbind, M_bind, new_logger, modify, get, mret, M_ret.
    rewrite Honce. cbn. reflexivity. }
  cbn [loggers maps emitted fiber set_once set_loggers set_instance hostname].
  split; [apply is_fresh|].
  split; [by rewrite lookup_insert_eq|].
  split; [by intros l Hl; rewrite !lookup_insert_ne|].
  split; [done|]. split; [done|]. split; [done|].
  by rewrite Initialize_all_again.
Qed.

Lemma Initialize_builds_logger_witness :
  exists h w',
    Initialize sample_config (initial_world "host" sample_request) = Ok (Some h) w' /\
    loggers w' !! h = Some {| zap := Some sample_zap; config := sample_config |} /\
    emitted w' = [].
Proof.
  destruct (Initialize_builds_logger sample_config []
              (initial_world "host" sample_request) eq_refl)
    as (h & w' & Hrun & _ & Hlogger & _ & _ & Hem & _).
  exists h, w'. split; [exact Hrun|]. split; [exact Hlogger | exact Hem].
Defined.

(** ** The field builder and the entry points, continued *)

Section EntryPointRuns.

(** One of the six entry points that only read the map, in closed form:
    they differ in level and [log_type] alone. *)
Lemma reader_run (entry : loc -> option Context -> string -> option loc -> M unit)
    lvl ty l ctx message context w lg z :
  (forall l ctx message context,
     entry l ctx message context =
     (w ← get; zap_log lvl l message (buildFields ctx ty (deref w context)))) ->
  loggers w !! l = Some lg -> zap lg = Some z ->
  entry l ctx message context w =
  Ok tt (set_emitted
           (emitted w ++
            [mkRecord lvl message
               (with_fields z ++ buildFields ctx ty (deref w context))]) w).
Proof.
  intros Hentry Hl Hz. rewrite Hentry.
  rewrite (bind_Ok get _ w w w eq_refl).
  by apply (zap_log_ok _ _ _ _ _ lg z).
Qed.

End EntryPointRuns.

(** X4.  The field list of a record starts with [log_type]; then come
    the trace fields, which are either absent or exactly [trace_id]
    followed by [span_id] of a valid span, never one without the other;
    then one field per entry of the caller's map, each key once. *)
Theorem buildFields_shape (ctx : option Context) (logType : LogType)
    (context : LogContext) :
  exists trace rest,
    buildFields ctx logType context =
      ("log_type", VString logType) :: trace ++ rest /\
    (trace = [] \/
     exists c sc,
       ctx = Some c /\ span c = Some sc /\ IsValid sc = true /\
       trace = [ ("trace_id", VString (TraceID_String sc));
                 ("span_id", VString (SpanID_String sc)) ]) /\
    rest ≡ₚ map_to_list context /\
    NoDup rest.*1 /\
    length (buildFields ctx logType context) =
      (1 + length trace + size context)%nat.
Proof.
  exists (getTraceContext ctx), (map_to_list context).
  split; [apply buildFields_eq|]. split; [|split; [done|split]].
  - destruct ctx as [c|]; [|by left].
    unfold getTraceContext, SpanFromContext.
    destruct (span c) as [sc|] eqn:Hspan; [|by left].
    destruct (IsValid sc) eqn:Hvalid; [|by left].
    right. by exists c, sc.
  - apply NoDup_fst_map_to_list.
  - rewrite buildFields_eq. cbn [length].
    rewrite length_app. unfold Field.
    by rewrite (length_map_to_list context).
Qed.

(** X5.  With a logger in place, each of the six entry points that only
    read the caller's map returns after handing zap exactly one record,
    with the caller's message and the fields of [buildFields], and changes
    nothing else: [Info] is Info/normal, [Warn] Warn/normal, [Debug]
    Debug/debug, [HTTP] Info/http, [Security] Warn/security, [Audit]
    Info/audit. *)
Theorem entry_points_level_and_type l ctx message context w lg z :
  loggers w !! l = Some lg -> zap lg = Some z ->
  let emit lvl ty :=
    Ok tt (set_emitted
             (emitted w ++
              [mkRecord lvl message
                 (with_fields z ++ buildFields ctx ty (deref w context))]) w) in
  Info l ctx message context w = emit InfoLevel "normal" /\
  Warn l ctx message context w = emit WarnLevel "normal" /\
  Debug l ctx message context w = emit DebugLevel "debug" /\
  HTTP l ctx message context w = emit InfoLevel "http" /\
  Security l ctx message context w = emit WarnLevel "security" /\
  Audit l ctx message context w = emit InfoLevel "audit".
Proof.
  intros Hl Hz emit. unfold emit.
  repeat split.
  - by apply (reader_run Info InfoLevel TypeNormal _ _ _ _ _ lg z).
  - by apply (reader_run Warn WarnLevel TypeNormal _ _ _ _ _ lg z).
  - by apply (reader_run Debug DebugLevel TypeDebug _ _ _ _ _ lg z).
  - by apply (reader_run HTTP InfoLevel TypeHTTP _ _ _ _ _ lg z).
  - by apply (reader_run Security WarnLevel TypeSecurity _ _ _ _ _ lg z).
  - by apply (reader_run Audit InfoLevel TypeAudit _ _ _ _ _ lg z).
Qed.

Lemma entry_points_level_and_type_witness :
  exists rec,
    emitted (world_of (Security 1%positive None "Unauthorized access attempt"
                         (Some 1%positive)
                         (world_with_map (<["user_id" := VString "USR-456"]> ∅))))
      = [rec] /\
    rlevel rec = WarnLevel /\
    rfields rec =
      with_fields sample_zap ++
      buildFields None "security" (<["user_id" := VString "USR-456"]> ∅).
Proof.
  eexists. 
  rewrite (proj1 (proj2 (proj2 (proj2 (proj2
             (entry_points_level_and_type 1%positive None
                "Unauthorized access attempt" (Some 1%positive)
                (world_with_map (<["user_id" := VString "USR-456"]> ∅))
                {| zap := Some sample_zap; config := sample_config |} sample_zap
                eq_refl eq_refl)))))).
  split; [reflexivity|]. split; reflexivity.
Defined.

(** X6.  [Error] on a nil map, or on a map that has no ["error"] key,
    does not panic and writes nothing into the map: it hands zap one
    Error-level record with [log_type] error and the map's entries as they
    are.  For the nil map the record has no caller field at all. *)
Theorem Error_without_error_key l ctx message context w lg z :
  loggers w !! l = Some lg -> zap lg = Some z ->
  deref w context !! "error" = None ->
  Error l ctx message context w =
    Ok tt (set_emitted
             (emitted w ++
              [mkRecord ErrorLevel message
                 (with_fields z ++ buildFields ctx "error" (deref w context))]) w) /\
  (context = None ->
   buildFields ctx "error" (deref w context) =
   ("log_type", VString "error") :: getTraceContext ctx).
Proof.
  intros Hl Hz Hnone. split.
  - apply (Error_plain _ _ _ _ _ lg z); [done..|]. by rewrite Hnone.
  - intros ->. rewrite buildFields_eq. cbn [deref].
    by rewrite map_to_list_empty, app_nil_r.
Qed.

Lemma Error_without_error_key_witness :
  Error 1%positive None "failed" None sample_world =
  Ok tt (set_emitted
           [mkRecord ErrorLevel "failed"
              (with_fields sample_zap ++ [("log_type", VString "error")])]
           sample_world).
Proof.
  destruct (Error_without_error_key 1%positive None "failed" None sample_world
              {| zap := Some sample_zap; config := sample_config |} sample_zap
              eq_refl eq_refl eq_refl) as [Hrun Hfields].
  rewrite Hrun, (Hfields eq_refl). reflexivity.
Defined.

(** X7.  Logging the same map through [Error] twice: the first call
    replaces the error object, the second finds no ["error"] key and leaves
    the map as the first call left it; both records have the same fields,
    with [error_message] in them. *)
Theorem Error_twice_same_fields l ctx message1 message2 r (m : LogContext) err
    w lg z :
  loggers w !! l = Some lg -> zap lg = Some z ->
  maps w !! r = Some m -> m !! "error" = Some (VError err) ->
  exists w1 w2 rec1 rec2,
    Error l ctx message1 (Some r) w = Ok tt w1 /\
    Error l ctx message2 (Some r) w1 = Ok tt w2 /\
    maps w2 = maps w1 /\
    emitted w2 = emitted w ++ [rec1; rec2] /\
    rfields rec2 = rfields rec1 /\
    ("error_message", VString err) ∈ rfields rec2.
Proof.
  intros Hl Hz Hr Herr.
  pose proof (Error_object l ctx message1 r m err w lg z Hl Hz Hr Herr) as Hrun1.
  cbn zeta in Hrun1.
  set (m' := delete "error"
               (<["error_type" := VString "error"]>
                  (<["error_message" := VString err]> m))) in *.
  set (w1 := set_emitted _ (set_maps (<[r := m']> (maps w)) w)) in Hrun1.
  assert (deref w1 (Some r) = m') as Hderef by apply deref_insert.
  assert (Error l ctx message2 (Some r) w1 =
          Ok tt (set_emitted
                   (emitted w1 ++
                    [mkRecord ErrorLevel message2
                       (with_fields z ++ buildFields ctx TypeError m')]) w1))
    as Hrun2.
  { rewrite (Error_plain _ _ _ _ _ lg z); [by rewrite Hderef|done|done|].
    rewrite Hderef. unfold m'. by rewrite lookup_delete_eq. }
  eexists w1, _, _, _. split; [exact Hrun1|]. split; [exact Hrun2|].
  cbn [maps emitted set_emitted set_maps rfields w1].
  split; [done|]. split; [by rewrite <- app_assoc|]. split; [done|].
  apply elem_of_app; right. apply caller_field_in_buildFields.
  unfold m'. by rewrite lookup_delete_ne, lookup_insert_ne, lookup_insert_eq.
Qed.

Lemma Error_twice_same_fields_witness :
  exists w1 w2 rec1 rec2,
    Error 1%positive None "first" (Some 1%positive)
          (world_with_map error_object_map) = Ok tt w1 /\
    Error 1%positive None "second" (Some 1%positive) w1 = Ok tt w2 /\
    maps w2 = maps w1 /\
    emitted w2 = [rec1; rec2] /\
    rfields rec2 = rfields rec1.
Proof.
  destruct (Error_twice_same_fields 1%positive None "first" "second" 1%positive
              error_object_map "test error" (world_with_map error_object_map)
              {| zap := Some sample_zap; config := sample_config |} sample_zap
              eq_refl eq_refl eq_refl eq_refl)
    as (w1 & w2 & rec1 & rec2 & H1 & H2 & Hmaps & Hem & Hfields & _).
  exists w1, w2, rec1, rec2. by repeat split.
Defined.

(** ** The middlewares, continued *)

Section MiddlewareRuns.

(** The recovery wrapper around a panicking handler, in closed form. *)
Lemma recovery_run l next w r w1 lg z :
  next w = Panic r w1 -> r <> VNil ->
  loggers w1 !! l = Some lg -> zap lg = Some z ->
  let c := fiber w1 in
  RecoveryMiddleware_handler l next w =
  Ok None
    (set_fiber
       (mkCtx (c_method c) (c_path c) (c_query c) (c_headers c) (c_ip c)
              (c_locals c) (c_userContext c) 500
              (BodyJSON (<["error" := VString "internal server error"]> ∅)))
       (set_emitted
          (emitted w1 ++
           [mkRecord ErrorLevel "Panic recovered"
              (with_fields z ++
               buildFields (Some (c_userContext c)) TypeError (panic_context r c))])
          (set_maps (<[fresh (dom (maps w1)) := panic_context r c]> (maps w1)) w1))).
Proof.
  intros Hnext Hr Hl Hz c.
  unfold RecoveryMiddleware_handler. rewrite Hnext.
  replace (is_nil r) with false by (by destruct r).
  by rewrite (recovered_run l r w1 lg z Hl Hz).
Qed.

(** What the field map of the access log binds. *)
Lemma access_context_lookup opts path duration c :
  let m := access_context opts path duration c in
  m !! "method" = Some (VString (c_method c)) /\
  m !! "path" = Some (VString path) /\
  m !! "status_code" = Some (VInt (c_status c)) /\
  m !! "duration_ms" = Some (VInt (Milliseconds duration)) /\
  m !! "ip" = Some (VString (c_ip c)) /\
  m !! "user_agent" = Some (VString (header_get "User-Agent" (c_headers c))) /\
  m !! "query" =
    (if String.eqb (c_query c) "" then None else Some (VString (c_query c))) /\
  m !! "headers" =
    (if IncludeHeaders opts
     then Some (VStringMap (visit_all_headers (c_headers c))) else None) /\
  m !! "user_id" =
    (if is_nil (Locals c "user_id") then None else Some (Locals c "user_id")).
Proof.
  assert ((0 <? Z.of_nat (String.length (c_query c))) =
          negb (String.eqb (c_query c) "")) as Hquery
    by (by destruct (c_query c)).
  cbn zeta. unfold access_context. rewrite Hquery.
  destruct (String.eqb (c_query c) ""), (IncludeHeaders opts),
    (is_nil (Locals c "user_id")); cbn [negb];
    repeat split;
    by rewrite ?lookup_insert_ne, ?lookup_insert_eq by done.
Qed.

Lemma access_context_keys opts path duration c key :
  key ∉ [ "method"; "path"; "status_code"; "duration_ms"; "ip"; "user_agent";
          "query"; "headers"; "user_id" ] ->
  access_context opts path duration c !! key = None.
Proof.
  intros Hkey. repeat (apply not_elem_of_cons in Hkey as [? Hkey]).
  unfold access_context.
  repeat case_match; by rewrite ?lookup_insert_ne by done.
Qed.

End MiddlewareRuns.

(** X8.  Both middlewares fetch the logger when they are constructed:
    before [Initialize] the constructors panic with the message of
    [GetInstance], and no handler is made.  After it, [FiberMiddleware]
    with nil options makes a handler that excludes no path and logs no
    request headers. *)
Theorem middleware_constructors_need_logger (w : World) :
  (instance w = None ->
   forall opts,
     (exists v, FiberMiddleware opts w = Panic v w /\
                v = VString "Logger not initialized. Call Initialize() first.") /\
     (exists v, RecoveryMiddleware w = Panic v w /\
                v = VString "Logger not initialized. Call Initialize() first.")) /\
  (forall l,
     instance w = Some l ->
     exists handler,
       FiberMiddleware None w = Ok handler w /\
       forall next w0 err w1 lg z,
         next w0 = Ok err w1 ->
         loggers w1 !! l = Some lg -> zap lg = Some z ->
         exists w2 rec m,
           handler next w0 = Ok err w2 /\
           emitted w2 = emitted w1 ++ [rec] /\
           rfields rec =
             with_fields z ++
             buildFields (Some (c_userContext (fiber w1)))
                         (access_dispatch (c_status (fiber w1))).2 m /\
           m !! "path" = Some (VString (c_path (fiber w0))) /\
           m !! "headers" = None).
Proof.
  split.
  - intros Hnone opts. unfold FiberMiddleware, RecoveryMiddleware.
    assert (GetInstance w =
            Panic (VString "Logger not initialized. Call Initialize() first.") w)
      as Hget by (unfold GetInstance; by rewrite Hnone).
    split; eexists; (split; [by rewrite (bind_Panic _ _ _ _ _ Hget)|done]).
  - intros l Hl. eexists. split.
    { unfold FiberMiddleware.
      assert (GetInstance w = Ok l w) as Hget by (unfold GetInstance; by rewrite Hl).
      by rewrite (bind_Ok _ _ _ _ _ Hget). }
    intros next w0 err w1 lg z Hnext Hlg Hz. cbn [default].
    pose proof (handler_logged
                  {| ExcludePaths := []; IncludeHeaders := false; IncludeBody := false |}
                  l next w0 err w1 lg z eq_refl Hnext Hlg Hz) as Hrun.
    cbn zeta in Hrun. eexists _, _, _. split; [exact Hrun|].
    cbn [emitted set_emitted set_maps rfields].
    split; [done|]. split; [done|].
    pose proof (access_context_lookup
                  {| ExcludePaths := []; IncludeHeaders := false; IncludeBody := false |}
                  (c_path (fiber w0)) (time_Sub (clock w1) (clock w0)) (fiber w1))
      as Hm.
    cbn zeta in Hm. by destruct Hm as (_ & Hpath & _ & _ & _ & _ & _ & Hheaders & _).
Qed.

Lemma middleware_constructors_need_logger_witness :
  (exists v, RecoveryMiddleware (initial_world "host" sample_request)
             = Panic v (initial_world "host" sample_request)) /\
  exists handler w2 rec,
    FiberMiddleware None sample_world = Ok handler sample_world /\
    handler (respond 1000 200) sample_world = Ok None w2 /\
    emitted w2 = [rec].
Proof.
  split.
  - destruct (proj1 (middleware_constructors_need_logger
                       (initial_world "host" sample_request)) eq_refl None)
      as [_ (v & Hv & _)].
    by exists v.
  - destruct (proj2 (middleware_constructors_need_logger sample_world)
                1%positive eq_refl) as (handler & Hmake & Hrun).
    destruct (Hrun (respond 1000 200) sample_world None
                (world_of (respond 1000 200 sample_world))
                {| zap := Some sample_zap; config := sample_config |} sample_zap
                eq_refl eq_refl eq_refl)
      as (w2 & rec & m & Hh & Hem & _).
    exists handler, w2, rec. split; [exact Hmake|]. split; [exact Hh | exact Hem].
Defined.

(** X9.  The field map of an access-log record always binds [method],
    [path] (as read before the downstream handler ran), [status_code],
    [duration_ms], [ip] and [user_agent]; it binds [query] exactly when the
    query string is not empty, [headers] exactly when [IncludeHeaders] is
    set, [user_id] exactly when the request store holds a non-nil value
    under that key; and it binds no other key. *)
Theorem access_log_fields opts l next w err w1 lg z :
  c_path (fiber w) ∉ ExcludePaths opts ->
  next w = Ok err w1 ->
  loggers w1 !! l = Some lg -> zap lg = Some z ->
  let c := fiber w1 in
  exists w2 rec (m : LogContext),
    FiberMiddleware_handler opts l next w = Ok err w2 /\
    emitted w2 = emitted w1 ++ [rec] /\
    rfields rec =
      with_fields z ++
      buildFields (Some (c_userContext c)) (access_dispatch (c_status c)).2 m /\
    m !! "method" = Some (VString (c_method c)) /\
    m !! "path" = Some (VString (c_path (fiber w))) /\
    m !! "status_code" = Some (VInt (c_status c)) /\
    m !! "duration_ms" =
      Some (VInt (Z.quot (time_Sub (clock w1) (clock w)) 1000000)) /\
    m !! "ip" = Some (VString (c_ip c)) /\
    m !! "user_agent" = Some (VString (header_get "User-Agent" (c_headers c))) /\
    m !! "query" =
      (if String.eqb (c_query c) "" then None else Some (VString (c_query c))) /\
    m !! "headers" =
      (if IncludeHeaders opts
       then Some (VStringMap (visit_all_headers (c_headers c))) else None) /\
    m !! "user_id" =
      (if is_nil (Locals c "user_id") then None else Some (Locals c "user_id")) /\
    (forall key,
       key ∉ [ "method"; "path"; "status_code"; "duration_ms"; "ip"; "user_agent";
               "query"; "headers"; "user_id" ] ->
       m !! key = None).
Proof.
  intros Hpath Hnext Hl Hz c.
  assert (is_excluded (c_path (fiber w)) (ExcludePaths opts) = false) as Hexcl.
  { apply not_true_is_false. by rewrite is_excluded_true. }
  pose proof (handler_logged opts l next w err w1 lg z Hexcl Hnext Hl Hz) as Hrun.
  cbn zeta in Hrun. eexists _, _, _. split; [exact Hrun|].
  cbn [emitted set_emitted set_maps rfields].
  split; [done|]. split; [done|].
  pose proof (access_context_lookup opts (c_path (fiber w))
                (time_Sub (clock w1) (clock w)) c) as Hm.
  cbn zeta in Hm.
  destruct Hm as (? & ? & ? & ? & ? & ? & ? & ? & ?).
  repeat (split; [done|]).
  intros key Hkey. by apply access_context_keys.
Qed.

Lemma access_log_fields_witness :
  exists w2 rec (m : LogContext),
    FiberMiddleware_handler sample_options 1%positive (respond 1000 200)
      sample_world = Ok None w2 /\
    emitted w2 = [rec] /\
    m !! "duration_ms" = Some (VInt 0) /\
    m !! "user_agent" = Some (VString "curl/8.0") /\
    m !! "query" = None /\ m !! "headers" = None /\ m !! "user_id" = None.
Proof.
  destruct (access_log_fields sample_options 1%positive (respond 1000 200)
              sample_world None (world_of (respond 1000 200 sample_world))
              {| zap := Some sample_zap; config := sample_config |} sample_zap)
    as (w2 & rec & m & Hrun & Hem & _ & _ & _ & _ & Hd & _ & Hua & Hq & Hh & Hu & _);
    try reflexivity.
  { intros [Heq|Hin]%elem_of_cons; [discriminate Heq | by apply elem_of_nil in Hin]. }
  exists w2, rec, m. by repeat split.
Defined.



(** X11.  With the access log outside and the recovery wrapper inside,
    a handler that panics on a request that is not excluded leaves two
    records, first "Panic recovered" and then the access log's own, which
    is of Error level and carries [status_code] 500: the access log sees
    the response as the recovery left it, and returns nil. *)
Theorem access_log_over_recovery opts l next w r w1 lg z :
  c_path (fiber w) ∉ ExcludePaths opts ->
  next w = Panic r w1 -> r <> VNil ->
  loggers w1 !! l = Some lg -> zap lg = Some z ->
  exists w3 rec_panic rec_access,
    FiberMiddleware_handler opts l (RecoveryMiddleware_handler l next) w
      = Ok None w3 /\
    emitted w3 = emitted w1 ++ [rec_panic; rec_access] /\
    rmessage rec_panic = "Panic recovered" /\
    ("panic", r) ∈ rfields rec_panic /\
    rlevel rec_access = ErrorLevel /\
    ("log_type", VString "error") ∈ rfields rec_access /\
    ("status_code", VInt 500) ∈ rfields rec_access /\
    c_status (fiber w3) = 500 /\
    c_body (fiber w3) = BodyJSON (<["error" := VString "internal server error"]> ∅).
Proof.
  intros Hpath Hnext Hr Hl Hz.
  assert (is_excluded (c_path (fiber w)) (ExcludePaths opts) = false) as Hexcl.
  { apply not_true_is_false. by rewrite is_excluded_true. }
  pose proof (recovery_run l next w r w1 lg z Hnext Hr Hl Hz) as Hinner.
  cbn zeta in Hinner.
  pose proof (handler_logged opts l (RecoveryMiddleware_handler l next) w None _
                lg z Hexcl Hinner Hl Hz) as Hrun.
  cbn zeta in Hrun. eexists _, _, _. split; [exact Hrun|].
  cbn [emitted fiber c_status c_body set_emitted set_maps set_fiber
       rmessage rlevel rfields access_dispatch].
  change (500 <=? 500) with true. cbn [fst snd].
  split; [by rewrite <- app_assoc|]. split; [done|].
  split.
  { apply elem_of_app; right. apply caller_field_in_buildFields.
    unfold panic_context. by rewrite lookup_insert_ne, lookup_insert_eq. }
  split; [done|]. split.
  { apply elem_of_app; right. apply elem_of_buildFields. by left. }
  split; [|done].
  apply elem_of_app; right. apply caller_field_in_buildFields.
  by destruct (access_context_lookup opts (c_path (fiber w))
                 (time_Sub (clock w1) (clock w))
                 (mkCtx (c_method (fiber w1)) (c_path (fiber w1)) (c_query (fiber w1))
                    (c_headers (fiber w1)) (c_ip (fiber w1)) (c_locals (fiber w1))
                    (c_userContext (fiber w1)) 500
                    (BodyJSON (<["error" := VString "internal server error"]> ∅))))
    as (_ & _ & Hstatus & _).
Qed.

Lemma access_log_over_recovery_witness :
  exists w3 rec_panic rec_access,
    FiberMiddleware_handler sample_options 1%positive
      (RecoveryMiddleware_handler 1%positive (panics_with (VString "integration panic test")))
      sample_world = Ok None w3 /\
    emitted w3 = [rec_panic; rec_access] /\
    rlevel rec_access = ErrorLevel /\
    ("status_code", VInt 500) ∈ rfields rec_access.
Proof.
  destruct (access_log_over_recovery sample_options 1%positive
              (panics_with (VString "integration panic test")) sample_world
              (VString "integration panic test") sample_world
              {| zap := Some sample_zap; config := sample_config |} sample_zap)
    as (w3 & rp & ra & Hrun & Hem & _ & _ & Hlevel & _ & Hstatus & _);
    try reflexivity; try discriminate.
  { intros [Heq|Hin]%elem_of_cons; [discriminate Heq | by apply elem_of_nil in Hin]. }
  exists w3, rp, ra. by repeat split.
Defined.

(** X12.  With the recovery wrapper outside and the access log inside,
    a panic of the handler goes through the access log untouched, so the
    request leaves only the record "Panic recovered": the access log
    writes nothing for it, excluded path or not. *)
Theorem recovery_over_access_log opts l next w r w1 lg z :
  next w = Panic r w1 -> r <> VNil ->
  loggers w1 !! l = Some lg -> zap lg = Some z ->
  FiberMiddleware_handler opts l next w = Panic r w1 /\
  exists w2 rec,
    RecoveryMiddleware_handler l (FiberMiddleware_handler opts l next) w
      = Ok None w2 /\
    emitted w2 = emitted w1 ++ [rec] /\
    rmessage rec = "Panic recovered" /\
    c_status (fiber w2) = 500.
Proof.
  intros Hnext Hr Hl Hz.
  pose proof (handler_panic_propagates opts l next w r w1 Hnext) as Hinner.
  split; [done|].
  pose proof (recovery_run l (FiberMiddleware_handler opts l next) w r w1 lg z
                Hinner Hr Hl Hz) as Hrun.
  cbn zeta in Hrun. eexists _, _. split; [exact Hrun|]. by repeat split.
Qed.

Lemma recovery_over_access_log_witness :
  exists w2 rec,
    RecoveryMiddleware_handler 1%positive
      (FiberMiddleware_handler sample_options 1%positive
         (panics_with (VString "test panic")))
      sample_world = Ok None w2 /\
    emitted w2 = [rec] /\ rmessage rec = "Panic recovered".
Proof.
  destruct (recovery_over_access_log sample_options 1%positive
              (panics_with (VString "test panic")) sample_world
              (VString "test panic") sample_world
              {| zap := Some sample_zap; config := sample_config |} sample_zap
              eq_refl ltac:(discriminate) eq_refl eq_refl)
    as [_ (w2 & rec & Hrun & Hem & Hmsg & _)].
  exists w2, rec. by repeat split.
Defined.

(** X13.  Recovering from a panic rewrites the status and the body of
    the response and nothing else of the request context: method, path,
    query, headers, client address, request store and user context stay,
    as do the loggers, the singleton and every map that existed; the map
    of the record is a new one. *)
Theorem recovery_frame l next w r w1 lg z :
  next w = Panic r w1 -> r <> VNil ->
  loggers w1 !! l = Some lg -> zap lg = Some z ->
  exists w2 a,
    RecoveryMiddleware_handler l next w = Ok None w2 /\
    c_method (fiber w2) = c_method (fiber w1) /\
    c_path (fiber w2) = c_path (fiber w1) /\
    c_query (fiber w2) = c_query (fiber w1) /\
    c_headers (fiber w2) = c_headers (fiber w1) /\
    c_ip (fiber w2) = c_ip (fiber w1) /\
    c_locals (fiber w2) = c_locals (fiber w1) /\
    c_userContext (fiber w2) = c_userContext (fiber w1) /\
    loggers w2 = loggers w1 /\ instance w2 = instance w1 /\
    (a ∉ dom (maps w1)) /\
    maps w2 !! a = Some (panic_context r (fiber w1)) /\
    (forall r0 m0, maps w1 !! r0 = Some m0 -> maps w2 !! r0 = Some m0).
Proof.
  intros Hnext Hr Hl Hz.
  pose proof (recovery_run l next w r w1 lg z Hnext Hr Hl Hz) as Hrun.
  cbn zeta in Hrun. eexists _, (fresh (dom (maps w1))). split; [exact Hrun|].
  cbn [fiber loggers instance maps set_fiber set_emitted set_maps
       c_method c_path c_query c_headers c_ip c_locals c_userContext].
  repeat (split; [done|]).
  split; [apply is_fresh|]. split; [apply lookup_insert_eq|].
  intros r0 m0 Hr0. rewrite lookup_insert_ne; [done|].
  intros <-. by apply (is_fresh (dom (maps w1))), elem_of_dom.
Qed.

Lemma recovery_frame_witness :
  exists w2,
    RecoveryMiddleware_handler 1%positive (panics_with (VError "error panic"))
      (world_with_map error_object_map) = Ok None w2 /\
    c_path (fiber w2) = "/healthz" /\
    maps w2 !! 1%positive = Some error_object_map.
Proof.
  destruct (recovery_frame 1%positive (panics_with (VError "error panic"))
              (world_with_map error_object_map) (VError "error panic")
              (world_with_map error_object_map)
              {| zap := Some sample_zap; config := sample_config |} sample_zap
              eq_refl ltac:(discriminate) eq_refl eq_refl)
    as (w2 & a & Hrun & _ & Hpath & _ & _ & _ & _ & _ & _ & _ & _ & _ & Hmaps).
  exists w2. split; [exact Hrun|]. split; [exact Hpath|].
  apply Hmaps. reflexivity.
Defined.

(** ** The helpers, continued *)

Section Helpers.

Lemma fold_headers_other (hs : list (string * string)) (acc : gmap string string)
    key :
  key ∉ hs.*1 ->
  fold_left (fun headers kv => <[kv.1 := kv.2]> headers) hs acc !! key = acc !! key.
Proof.
  revert acc. induction hs as [|[k v] hs IH]; intros acc Hkey; [done|].
  cbn in Hkey. apply not_elem_of_cons in Hkey as [Hne Hkey].
  cbn [fold_left]. rewrite IH by done. cbn. by rewrite lookup_insert_ne.
Qed.

(** Truncation toward zero is the floor for a duration that is not
    negative. *)
Lemma Milliseconds_floor (d : Duration) :
  0 <= d ->
  0 <= Milliseconds d /\
  1000000 * Milliseconds d <= d < 1000000 * (Milliseconds d + 1).
Proof.
  intros Hd. unfold Milliseconds.
  pose proof (Z.quot_rem' d 1000000) as Hqr.
  assert (0 <= Z.rem d 1000000 < 1000000) as Hrem
    by (apply Z.rem_bound_pos; lia).
  assert (0 <= d `quot` 1000000) by (apply Z.quot_pos; lia).
  lia.
Qed.

End Helpers.

(** X14.  [Fields] checks the number of arguments before it looks at any
    key: an odd number of arguments panics with "Fields requires an even
    number of arguments" whatever the keys are, and an even number with a
    non-string in a key position panics with "Field keys must be strings".
    With no argument at all it returns an empty map. *)
Theorem Fields_panic_messages (keysAndValues : list value) :
  (Nat.Odd (length keysAndValues) ->
   Fields keysAndValues =
   inl (VString "Fields requires an even number of arguments")) /\
  (Nat.Even (length keysAndValues) ->
   Exists (fun kv => as_string kv.1 = None) (arg_pairs keysAndValues) ->
   Fields keysAndValues = inl (VString "Field keys must be strings")) /\
  (keysAndValues = [] -> Fields keysAndValues = inr ∅).
Proof.
  split; [apply Fields_odd|]. split.
  - intros Heven Hbad. rewrite Fields_even by done. by apply Fields_loop_panics.
  - by intros ->.
Qed.

Lemma Fields_panic_messages_witness :
  Fields [VInt 123; VString "value"; VString "key2"] =
    inl (VString "Fields requires an even number of arguments") /\
  Fields [VString "key1"; VString "value1"; VInt 123; VString "value"] =
    inl (VString "Field keys must be strings") /\
  Fields [] = inr ∅.
Proof.
  split; [|split].
  - apply (proj1 (Fields_panic_messages
                    [VInt 123; VString "value"; VString "key2"])).
    by exists 1%nat.
  - apply (proj1 (proj2 (Fields_panic_messages
                    [VString "key1"; VString "value1"; VInt 123; VString "value"]))).
    + by exists 2%nat.
    + right. by left.
  - by apply (proj2 (proj2 (Fields_panic_messages []))).
Defined.



(** X16.  The header map of the access log has one entry per header
    name: a name that no request header has is not in it, and a name that
    occurs several times is bound to the value of its last occurrence. *)
Theorem visit_all_headers_last_wins (hs : list (string * string)) (key : string) :
  (key ∉ hs.*1 -> visit_all_headers hs !! key = None) /\
  (forall hs1 v hs2,
     hs = hs1 ++ (key, v) :: hs2 -> key ∉ hs2.*1 ->
     visit_all_headers hs !! key = Some v).
Proof.
  unfold visit_all_headers. split.
  - intros Hkey. by rewrite fold_headers_other.
  - intros hs1 v hs2 -> Hkey.
    rewrite fold_left_app. cbn [fold_left].
    rewrite fold_headers_other by done. cbn. apply lookup_insert_eq.
Qed.

Lemma visit_all_headers_last_wins_witness :
  visit_all_headers
    [("Accept", "text/html"); ("X-Custom-Header", "value"); ("Accept", "*/*")]
    !! "Accept" = Some "*/*" /\
  visit_all_headers [("Accept", "text/html")] !! "Authorization" = None.
Proof.
  split.
  - apply (proj2 (visit_all_headers_last_wins
                    [("Accept", "text/html"); ("X-Custom-Header", "value");
                     ("Accept", "*/*")] "Accept")
             [("Accept", "text/html"); ("X-Custom-Header", "value")] "*/*" []).
    + reflexivity.
    + apply not_elem_of_nil.
  - apply (proj1 (visit_all_headers_last_wins
                    [("Accept", "text/html")] "Authorization")).
    intros [Heq|Hin]%elem_of_cons; [discriminate Heq | by apply elem_of_nil in Hin].
Defined.

(** X17.  [MeasureDuration] reads the clock and changes nothing.  When
    the start is not in the future and the elapsed time fits a
    [Duration], its result is a whole number of milliseconds, not
    negative: the elapsed nanoseconds divided by one million, rounded
    down. *)
Theorem MeasureDuration_whole_milliseconds (start : Time) (w : World) :
  start <= clock w -> clock w - start <= maxDuration ->
  exists ms : Z,
    MeasureDuration start w = Ok (inject_Z ms) w /\
    0 <= ms /\
    1000000 * ms <= clock w - start < 1000000 * (ms + 1).
Proof.
  intros Hstart Hfit.
  exists (Milliseconds (clock w - start)).
  assert (time_Sub (clock w) start = clock w - start) as Hsub.
  { unfold time_Sub, minDuration, maxDuration in *.
    destruct (Z.ltb_spec (clock w - start) (- 2 ^ 63)); [lia|].
    destruct (Z.ltb_spec (2 ^ 63 - 1) (clock w - start)); [lia|done]. }
  split.
  - unfold MeasureDuration, time_Since.
    erewrite (bind_Ok (time_Now ≫= _)); [reflexivity|].
    rewrite (bind_Ok time_Now _ w (clock w) w eq_refl).
    by rewrite Hsub.
  - apply Milliseconds_floor. lia.
Qed.

Lemma MeasureDuration_whole_milliseconds_witness :
  exists ms : Z,
    MeasureDuration 0 (world_of (respond 10500000 200 sample_world))
      = Ok (inject_Z ms) (world_of (respond 10500000 200 sample_world)) /\
    0 <= ms /\
    1000000 * ms <= 10500000 - 0 < 1000000 * (ms + 1).
Proof.
  apply (MeasureDuration_whole_milliseconds 0
           (world_of (respond 10500000 200 sample_world))).
  - discriminate.
  - discriminate.
Defined.

(** X18.  Both middlewares log with the user context of the request as
    it is when they log.  If that context carries a valid span, the record
    of the access log, and the record of a recovered panic, contain
    [trace_id] and [span_id] of that span. *)
Theorem middleware_records_carry_trace opts l next w lg z sc :
  (forall err w1,
     c_path (fiber w) ∉ ExcludePaths opts ->
     next w = Ok err w1 ->
     loggers w1 !! l = Some lg -> zap lg = Some z ->
     span (c_userContext (fiber w1)) = Some sc -> IsValid sc = true ->
     exists w2 rec,
       FiberMiddleware_handler opts l next w = Ok err w2 /\
       emitted w2 = emitted w1 ++ [rec] /\
       ("trace_id", VString (TraceID_String sc)) ∈ rfields rec /\
       ("span_id", VString (SpanID_String sc)) ∈ rfields rec) /\
  (forall r w1,
     next w = Panic r w1 -> r <> VNil ->
     loggers w1 !! l = Some lg -> zap lg = Some z ->
     span (c_userContext (fiber w1)) = Some sc -> IsValid sc = true ->
     exists w2 rec,
       RecoveryMiddleware_handler l next w = Ok None w2 /\
       emitted w2 = emitted w1 ++ [rec] /\
       ("trace_id", VString (TraceID_String sc)) ∈ rfields rec /\
       ("span_id", VString (SpanID_String sc)) ∈ rfields rec).
Proof.
  assert (forall c ty (m : LogContext) fs,
            span c = Some sc -> IsValid sc = true ->
            ("trace_id", VString (TraceID_String sc)) ∈
              fs ++ buildFields (Some c) ty m /\
            ("span_id", VString (SpanID_String sc)) ∈
              fs ++ buildFields (Some c) ty m) as Htrace.
  { intros c ty m fs Hspan Hvalid.
    split; apply elem_of_app; right; apply elem_of_buildFields; right; left;
      rewrite (getTraceContext_valid c sc Hspan Hvalid).
    - by left.
    - right. by left. }
  split.
  - intros err w1 Hpath Hnext Hl Hz Hspan Hvalid.
    assert (is_excluded (c_path (fiber w)) (ExcludePaths opts) = false) as Hexcl.
    { apply not_true_is_false. by rewrite is_excluded_true. }
    pose proof (handler_logged opts l next w err w1 lg z Hexcl Hnext Hl Hz) as Hrun.
    cbn zeta in Hrun. eexists _, _. split; [exact Hrun|].
    cbn [emitted set_emitted set_maps rfields]. split; [done|].
    by apply Htrace.
  - intros r w1 Hnext Hr Hl Hz Hspan Hvalid.
    pose proof (recovery_run l next w r w1 lg z Hnext Hr Hl Hz) as Hrun.
    cbn zeta in Hrun. eexists _, _. split; [exact Hrun|].
    cbn [emitted set_emitted set_maps set_fiber rfields]. split; [done|].
    by apply Htrace.
Qed.

Lemma middleware_records_carry_trace_witness :
  exists w2 rec,
    FiberMiddleware_handler sample_options 1%positive (respond 1000 200)
      (set_fiber
         (mkCtx "GET" "/api/products" "" [] "10.0.1.25" ∅
                {| span := Some {| TraceID := 255; SpanID := 1 |} |} 200 BodyEmpty)
         sample_world) = Ok None w2 /\
    emitted w2 = [rec] /\
    ("trace_id", VString "000000000000000000000000000000ff") ∈ rfields rec /\
    ("span_id", VString "0000000000000001") ∈ rfields rec.
Proof.
  apply (proj1 (middleware_records_carry_trace sample_options 1%positive
                  (respond 1000 200)
                  (set_fiber
                     (mkCtx "GET" "/api/products" "" [] "10.0.1.25" ∅
                            {| span := Some {| TraceID := 255; SpanID := 1 |} |}
                            200 BodyEmpty)
                     sample_world)
                  {| zap := Some sample_zap; config := sample_config |} sample_zap
                  {| TraceID := 255; SpanID := 1 |})
           None
           (world_of (respond 1000 200
              (set_fiber
                 (mkCtx "GET" "/api/products" "" [] "10.0.1.25" ∅
                        {| span := Some {| TraceID := 255; SpanID := 1 |} |}
                        200 BodyEmpty)
                 sample_world))));
    try reflexivity.
  intros [Heq|Hin]%elem_of_cons; [discriminate Heq | by apply elem_of_nil in Hin].
Defined.
